(** * SopsSecretGenerator: a shallow embedding of [SopsSecretGenerator.go]

    Go strings and byte slices are both sequences of bytes; they are
    modelled by [string] (a list of [ascii], one per byte), so that the
    conversions [string(b)] and [[]byte(s)] are the identity.  A [kvMap]
    (Go [map[string]string]) is a [gmap string string]; a nil map and an
    empty map are not distinguished. *)

From Stdlib Require Import NArith Ascii String.
From stdpp Require Import base option list strings gmap fin_maps.

(** ** Bytes *)

Definition byte_val (c : ascii) : N := N_of_ascii c.

Definition in_range (lo hi : N) (c : ascii) : bool :=
  ((lo <=? byte_val c) && (byte_val c <=? hi))%N.

Definition LF : ascii := "010"%char.
Definition CR : ascii := "013"%char.

(** ** Package constants *)

Definition apiVersion : string := "kustomize.freightdog.com/v1".
Definition kind : string := "SopsSecretGenerator".

Definition utf8bom : string :=
  String "239" (String "187" (String "191" "")).

(** ** encoding/base64: [StdEncoding.EncodeToString] *)

Module base64.

Definition encodeStd : string :=
  "ABCDEFGHIJKLMNOPQRSTUVWXYZabcdefghijklmnopqrstuvwxyz0123456789+/".

Definition enc (i : N) : ascii :=
  match String.get (N.to_nat i) encodeStd with
  | Some c => c
  | None => "="%char
  end.

Definition pad : ascii := "="%char.

Fixpoint EncodeToString (src : string) : string :=
  match src with
  | "" => ""
  | String a "" =>
      let v := N.shiftl (byte_val a) 16 in
      String (enc (N.land (N.shiftr v 18) 63))
        (String (enc (N.land (N.shiftr v 12) 63))
           (String pad (String pad "")))
  | String a (String b "") =>
      let v := N.lor (N.shiftl (byte_val a) 16) (N.shiftl (byte_val b) 8) in
      String (enc (N.land (N.shiftr v 18) 63))
        (String (enc (N.land (N.shiftr v 12) 63))
           (String (enc (N.land (N.shiftr v 6) 63))
              (String pad "")))
  | String a (String b (String c rest)) =>
      let v := N.lor (N.lor (N.shiftl (byte_val a) 16)
                        (N.shiftl (byte_val b) 8)) (byte_val c) in
      String (enc (N.land (N.shiftr v 18) 63))
        (String (enc (N.land (N.shiftr v 12) 63))
           (String (enc (N.land (N.shiftr v 6) 63))
              (String (enc (N.land v 63)) (EncodeToString rest))))
  end.

End base64.

(** ** unicode/utf8 *)

Module utf8.

Definition RuneError : N := 65533.

(** Continuation byte, 0x80..0xBF. *)
Definition cont (c : ascii) : bool := in_range 128 191 c.

Definition low6 (c : ascii) : N := N.land (byte_val c) 63.

(** The table [first] together with [acceptRanges]: for a leading byte,
    the length of the sequence and the range accepted for the second
    byte; [None] for a byte that cannot start a sequence. *)
Definition accept (b0 : ascii) : option (nat * N * N) :=
  let v := byte_val b0 in
  if (v <? 194)%N then None
  else if (v <=? 223)%N then Some (2, 128%N, 191%N)
  else if (v =? 224)%N then Some (3, 160%N, 191%N)
  else if (v <=? 236)%N then Some (3, 128%N, 191%N)
  else if (v =? 237)%N then Some (3, 128%N, 159%N)
  else if (v <=? 239)%N then Some (3, 128%N, 191%N)
  else if (v =? 240)%N then Some (4, 144%N, 191%N)
  else if (v <=? 243)%N then Some (4, 128%N, 191%N)
  else if (v =? 244)%N then Some (4, 128%N, 143%N)
  else None.

(** [DecodeRune p]: the first rune of [p] and its width in bytes;
    [(RuneError, 1)] for a malformed sequence, [(RuneError, 0)] for
    the empty input. *)
Definition DecodeRune (p : string) : N * nat :=
  match p with
  | "" => (RuneError, 0)
  | String b0 p1 =>
      if (byte_val b0 <? 128)%N then (byte_val b0, 1)
      else
        match accept b0 with
        | None => (RuneError, 1)
        | Some (sz, lo, hi) =>
            match p1 with
            | String b1 p2 =>
                if negb (in_range lo hi b1) then (RuneError, 1)
                else
                  match sz with
                  | 2 => (N.lor (N.shiftl (N.land (byte_val b0) 31) 6)
                            (low6 b1), 2)
                  | _ =>
                      match p2 with
                      | String b2 p3 =>
                          if negb (cont b2) then (RuneError, 1)
                          else
                            match sz with
                            | 3 =>
                                (N.lor (N.lor
                                    (N.shiftl (N.land (byte_val b0) 15) 12)
                                    (N.shiftl (low6 b1) 6)) (low6 b2), 3)
                            | _ =>
                                match p3 with
                                | String b3 _ =>
                                    if negb (cont b3) then (RuneError, 1)
                                    else
                                      (N.lor (N.lor (N.lor
                                         (N.shiftl (N.land (byte_val b0) 7) 18)
                                         (N.shiftl (low6 b1) 12))
                                         (N.shiftl (low6 b2) 6)) (low6 b3), 4)
                                | "" => (RuneError, 1)
                                end
                            end
                      | "" => (RuneError, 1)
                      end
                  end
            | "" => (RuneError, 1)
            end
        end
  end.

(** [Valid p]: [p] consists entirely of well-formed UTF-8 sequences. *)
Fixpoint Valid (p : string) : bool :=
  match p with
  | "" => true
  | String b0 p1 =>
      if (byte_val b0 <? 128)%N then Valid p1
      else
        match accept b0 with
        | None => false
        | Some (sz, lo, hi) =>
            match p1 with
            | String b1 p2 =>
                in_range lo hi b1 &&
                match sz with
                | 2 => Valid p2
                | _ =>
                    match p2 with
                    | String b2 p3 =>
                        cont b2 &&
                        match sz with
                        | 3 => Valid p3
                        | _ =>
                            match p3 with
                            | String b3 p4 => cont b3 && Valid p4
                            | "" => false
                            end
                        end
                    | "" => false
                    end
                end
            | "" => false
            end
        end
  end.

End utf8.

(** ** unicode: [IsSpace] *)

Module unicode.

Definition MaxLatin1 : N := 255.

(** The Latin-1 switch of [IsSpace], then the [White_Space] range
    table for the runes above Latin-1. *)
Definition IsSpace (r : N) : bool :=
  if (r <=? MaxLatin1)%N then
    ((9 <=? r) && (r <=? 13) || (r =? 32) || (r =? 133) || (r =? 160))%N
  else
    ((r =? 5760) || ((8192 <=? r) && (r <=? 8202)) || (r =? 8232)
     || (r =? 8233) || (r =? 8239) || (r =? 8287) || (r =? 12288))%N.

End unicode.

(** ** bytes and strings helpers *)

Fixpoint string_drop (n : nat) (s : string) : string :=
  match n, s with
  | O, _ => s
  | S k, String _ s' => string_drop k s'
  | S _, "" => ""
  end.

Module bytes.

Definition HasPrefix (s prefix : string) : bool := String.prefix prefix s.

(** [TrimPrefix s prefix]: [s[len(prefix):]] when [s] starts with
    [prefix], otherwise [s] unchanged. *)
Definition TrimPrefix (s prefix : string) : string :=
  if HasPrefix s prefix then string_drop (String.length prefix) s else s.

(** [indexFunc] of [TrimLeftFunc]: [skip] counts the bytes of the
    current rune still to be stepped over ([start += wid]). *)
Fixpoint trimLeftFrom (f : N → bool) (skip : nat) (s : string) : string :=
  match s with
  | "" => ""
  | String c s' =>
      match skip with
      | S k => trimLeftFrom f k s'
      | O =>
          let '(r, wid) :=
            if (byte_val c <? 128)%N then (byte_val c, 1)
            else utf8.DecodeRune s in
          if f r then trimLeftFrom f (wid - 1) s' else s
      end
  end.

Definition TrimLeftFunc (s : string) (f : N → bool) : string :=
  trimLeftFrom f 0 s.

End bytes.


Module strings.

(** The separator is a single byte: the program only ever splits on "=". *)

(** [Cut s sep]: the text before and after the first [sep], if any. *)
Fixpoint Cut (s : string) (sep : ascii) : option (string * string) :=
  match s with
  | "" => None
  | String c s' =>
      if Ascii.eqb c sep then Some ("", s')
      else
        match Cut s' sep with
        | Some (a, b) => Some (String c a, b)
        | None => None
        end
  end.

Fixpoint Count (s : string) (sep : ascii) : nat :=
  match s with
  | "" => 0
  | String c s' => (if Ascii.eqb c sep then 1 else 0) + Count s' sep
  end.

(** [SplitN s sep 2]: at most two pieces, cut at the first [sep]. *)
Definition SplitN2 (s : string) (sep : ascii) : list string :=
  match Cut s sep with
  | Some (a, b) => [a; b]
  | None => [s]
  end.

(** [Split s sep]: all the pieces between separators, [Count s sep + 1]
    of them. *)
Fixpoint Split (s : string) (sep : ascii) : list string :=
  match s with
  | "" => [""]
  | String c s' =>
      if Ascii.eqb c sep then "" :: Split s' sep
      else
        match Split s' sep with
        | l :: ls => String c l :: ls
        | [] => [String c ""]
        end
  end.

End strings.

Module path.

Definition slash : ascii := "/"%char.

(** [for len(path) > 0 && path[len(path)-1] == '/' { path = path[:len(path)-1] }] *)
Fixpoint stripTrailingSlashes (p : string) : string :=
  match p with
  | "" => ""
  | String c p' =>
      match stripTrailingSlashes p' with
      | "" => if Ascii.eqb c slash then "" else String c ""
      | r => String c r
      end
  end.

(** [path[i+1:]] for the last index [i] of a slash, [path] itself when
    it has none. *)
Fixpoint afterLastSlash (p : string) : string :=
  match p with
  | "" => ""
  | String c p' =>
      if Nat.ltb 0 (strings.Count p' slash) then afterLastSlash p'
      else if Ascii.eqb c slash then p'
      else p
  end.

Definition Base (p : string) : string :=
  if String.eqb p "" then "."
  else
    let p := afterLastSlash (stripTrailingSlashes p) in
    if String.eqb p "" then "/" else p.

End path.

(** ** Errors *)

(** The context that [errors.Wrap] and [errors.Wrapf] put in front of a
    cause. *)
Inductive context : Type :=
  | CtxLine (lineNum : nat)            (* "line %d" *)
  | CtxEnvSource (source : string)     (* env source <source> *)
  | CtxFileSource (source : string)    (* file source <source> *)
  | CtxCouldNotRead                    (* "could not read file" *)
  | CtxCouldNotDecrypt.                (* "sops could not decrypt" *)

Inductive error : Type :=
  | ErrExternal (msg : string)         (* raised by os, sops, yaml, json or the SDK *)
  | ErrInputType                       (* "input must be apiVersion %s, kind %s" *)
  | ErrInputName                       (* "input must contain metadata.name value" *)
  | ErrInvalidUTF8 (line : string)     (* "invalid UTF-8 bytes: %v" *)
  | ErrRequiresValue (line : string)   (* "requires value: %v" *)
  | ErrTooLong                         (* bufio.ErrTooLong *)
  | ErrUnknownFormat                   (* "unknown file format, use dotenv, yaml or json" *)
  | ErrKeyMissing (fn : string)        (* key name for file path <fn> missing *)
  | ErrPathMissing (key : string)      (* file path for key name <key> missing *)
  | ErrAmbiguousDelimiter              (* key names or file paths cannot contain = *)
  | Wrap (cause : error) (ctx : context).

Inductive result (A : Type) : Type :=
  | Ok (a : A)
  | Err (e : error).
Arguments Ok {A} a.
Arguments Err {A} e.

Definition is_ok {A} (r : result A) : bool :=
  match r with Ok _ => true | Err _ => false end.

(** ** Data model *)

Abbreviation kvMap := (gmap string string).

Definition stripAnnotations : gmap string bool :=
  <["config.kubernetes.io/local-config" := true]>
    (<["config.kubernetes.io/function" := true]> ∅).

Record TypeMeta : Type := mkTypeMeta {
  APIVersion : string;
  Kind : string
}.

Record ObjectMeta : Type := mkObjectMeta {
  Name : string;
  Namespace : string;
  Labels : kvMap;
  Annotations : kvMap
}.

Record SopsSecretGenerator : Type := mkSopsSecretGenerator {
  gTypeMeta : TypeMeta;
  gObjectMeta : ObjectMeta;
  EnvSources : list string;
  FileSources : list string;
  Behavior : string;
  DisableNameSuffixHash : bool;
  gType : string
}.

Record Secret : Type := mkSecret {
  sTypeMeta : TypeMeta;
  sObjectMeta : ObjectMeta;
  Data : kvMap;
  sType : string
}.

(** ** Dotenv extraction *)

Definition hash : ascii := "#"%char.
Definition equals : ascii := "="%char.

Definition parseDotEnvLine (line : string) (data : kvMap) : result kvMap :=
  if negb (utf8.Valid line) then Err (ErrInvalidUTF8 line)
  else
    let line := bytes.TrimLeftFunc line unicode.IsSpace in
    match line with
    | "" => Ok data
    | String c _ =>
        if Ascii.eqb c hash then Ok data
        else
          match strings.SplitN2 line equals with
          | [k; v] => Ok (<[k := base64.EncodeToString v]> data)
          | _ => Err (ErrRequiresValue line)
          end
    end.

(** *** bufio.Scanner with the [ScanLines] split function

    The reader is an in-memory [bytes.Reader], so the scanner is a pure
    function of the content.  [rawLines] cuts the content at every line
    feed; a last piece without a line feed is a line as well, unless it is
    empty.  [Scan] hands out the next line with one trailing carriage
    return dropped.  Its buffer grows to [MaxScanTokenSize] bytes and has
    to hold the line and one byte more (the line feed, or room to see the
    end of the input): on a line of [MaxScanTokenSize] bytes or more
    [Scan] gives up with [ErrTooLong]. *)

Module bufio.

Definition MaxScanTokenSize : N := 65536.

Fixpoint rawLines (content : string) : list string :=
  match content with
  | "" => []
  | String c rest =>
      if Ascii.eqb c LF then "" :: rawLines rest
      else
        match rawLines rest with
        | [] => [String c ""]
        | l :: ls => String c l :: ls
        end
  end.

Fixpoint dropCR (data : string) : string :=
  match data with
  | "" => ""
  | String c "" => if Ascii.eqb c CR then "" else data
  | String c rest => String c (dropCR rest)
  end.

Inductive scanned : Type :=
  | Token (line : string) (rest : list string)
  | Stop (err : option error).

(** One call of [Scan] followed by [Bytes] (or, at the end, [Err]),
    the state of the scanner being the lines not yet handed out. *)
Definition Scan (pending : list string) : scanned :=
  match pending with
  | [] => Stop None
  | l :: rest =>
      if (MaxScanTokenSize <=? N.of_nat (String.length l))%N then Stop (Some ErrTooLong)
      else Token (dropCR l) rest
  end.

End bufio.

(** The loop [for scanner.Scan() { ... }] of [parseDotEnvContent] and the
    final [return scanner.Err()].  The functions that fill the map write
    into the map they are given; here they return the map as they leave
    it, and no map once they fail: [parseInput] drops the map when
    anything fails. *)
Fixpoint parseDotEnvLoop (lineNum : nat) (scanner : list string) (data : kvMap)
  : result kvMap :=
  match scanner with
  | [] => Ok data
  | l :: rest =>
      match bufio.Scan scanner with
      | bufio.Stop None => Ok data
      | bufio.Stop (Some e) => Err e
      | bufio.Token line _ =>
          let line :=
            if Nat.eqb lineNum 0 then bytes.TrimPrefix line utf8bom else line in
          match parseDotEnvLine line data with
          | Err e => Err (Wrap e (CtxLine lineNum))
          | Ok data => parseDotEnvLoop (S lineNum) rest data
          end
      end
  end.

Definition parseDotEnvContent (content : string) (data : kvMap) : result kvMap :=
  parseDotEnvLoop 0 (bufio.rawLines content) data.

(** ** The world outside the program

    The file system, the sops library, the YAML and JSON decoders and the
    KRM function SDK are collaborators of the program.  They are gathered
    in a [Host], of which the program is a function. *)

(** [formats.Format] of sops. *)
Inductive Format : Type := Binary | Dotenv | Ini | Json | Yaml.

Record Host : Type := mkHost {
  KubeObject : Type;
  (** [os.ReadFile] *)
  os_ReadFile : string → result string;
  (** [formats.FormatForPath] *)
  formats_FormatForPath : string → Format;
  (** [decrypt.DataWithFormat] *)
  decrypt_DataWithFormat : string → Format → result string;
  (** [yaml.Unmarshal] into a generator that holds the given initial value *)
  yaml_Unmarshal_generator :
    string → SopsSecretGenerator → result SopsSecretGenerator;
  (** [yaml.Unmarshal] and [json.Unmarshal] into a fresh [kvMap] *)
  yaml_Unmarshal_kvMap : string → result kvMap;
  json_Unmarshal_kvMap : string → result kvMap;
  (** [yaml.Marshal] of a [Secret] *)
  yaml_Marshal : Secret → result string;
  (** [fn.ParseKubeObject] and the [String] method of [fn.KubeObject] *)
  fn_ParseKubeObject : string → result KubeObject;
  KubeObject_String : KubeObject → string
}.

(** What the program does to the outside world while it runs, in order. *)
Inductive Event : Type :=
  | EvReadFile (fileName : string)
  | EvDecrypt (content : string) (format : Format).

(** A computation that logs its events and ends with a value or an error. *)
Definition IO (A : Type) : Type := (list Event * result A)%type.

Definition events {A} (m : IO A) : list Event := fst m.
Definition outcome {A} (m : IO A) : result A := snd m.

#[global] Instance IO_ret : MRet IO := λ A a, ([], Ok a).
#[global] Instance IO_bind : MBind IO := λ A B f m,
  match m with
  | (ev, Ok a) => let '(ev', r) := f a in (ev ++ ev', r)
  | (ev, Err e) => (ev, Err e)
  end.

Definition lift {A} (r : result A) : IO A := ([], r).
Definition emit (e : Event) : IO unit := ([e], Ok tt).

(** [errors.Wrap(err, ctx)] around a computation: a failure is wrapped,
    a success is left alone. *)
Definition wrapping {A} (ctx : context) (m : IO A) : IO A :=
  match m with
  | (ev, Err e) => (ev, Err (Wrap e ctx))
  | _ => m
  end.

Record ResourceList (KO : Type) : Type := mkResourceList {
  Items : list KO;
  Results : list error
}.
Arguments mkResourceList {KO} _ _.
Arguments Items {KO} _.
Arguments Results {KO} _.

(** [rl.LogResult(err)] *)
Definition LogResult {KO} (rl : ResourceList KO) (err : error) : ResourceList KO :=
  mkResourceList (Items rl) (Results rl ++ [err]).

(** The value [readInput] hands to the decoder: every field zero, the
    annotations an empty map. *)
Definition zeroInput : SopsSecretGenerator :=
  {| gTypeMeta := {| APIVersion := ""; Kind := "" |};
     gObjectMeta :=
       {| Name := ""; Namespace := ""; Labels := ∅; Annotations := ∅ |};
     EnvSources := []; FileSources := []; Behavior := "";
     DisableNameSuffixHash := false; gType := "" |}.

Section Program.

Variable host : Host.

Definition decryptFile (source : string) : IO string :=
  _ ← emit (EvReadFile source);
  content ← wrapping CtxCouldNotRead (lift (os_ReadFile host source));
  _ ← emit (EvDecrypt content (formats_FormatForPath host source));
  wrapping CtxCouldNotDecrypt
    (lift (decrypt_DataWithFormat host content
             (formats_FormatForPath host source))).

(** [for k, v := range d { data[k] = base64(v) }] *)
Definition storeEncoded (d data : kvMap) : kvMap :=
  map_fold (λ k v acc, <[k := base64.EncodeToString v]> acc) data d.

Definition parseYAMLContent (content : string) (data : kvMap) : result kvMap :=
  match yaml_Unmarshal_kvMap host content with
  | Err e => Err e
  | Ok d => Ok (storeEncoded d data)
  end.

Definition parseJSONContent (content : string) (data : kvMap) : result kvMap :=
  match json_Unmarshal_kvMap host content with
  | Err e => Err e
  | Ok d => Ok (storeEncoded d data)
  end.

Definition parseEnvSource (source : string) (data : kvMap) : IO kvMap :=
  decrypted ← decryptFile source;
  lift
    match formats_FormatForPath host source with
    | Dotenv => parseDotEnvContent decrypted data
    | Yaml => parseYAMLContent decrypted data
    | Json => parseJSONContent decrypted data
    | _ => Err ErrUnknownFormat
    end.

Fixpoint parseEnvSources (sources : list string) (data : kvMap) : IO kvMap :=
  match sources with
  | [] => mret data
  | source :: rest =>
      data ← wrapping (CtxEnvSource source) (parseEnvSource source data);
      parseEnvSources rest data
  end.

Definition parseFileName (source : string) : result (string * string) :=
  match strings.Split source equals with
  | [_] => Ok (path.Base source, source)
  | [key; fn] =>
      if String.eqb key "" then Err (ErrKeyMissing fn)
      else if String.eqb fn "" then Err (ErrPathMissing key)
      else Ok (key, fn)
  | _ => Err ErrAmbiguousDelimiter
  end.

Definition parseFileSource (source : string) (data : kvMap) : IO kvMap :=
  '(key, fname) ← lift (parseFileName source);
  decrypted ← decryptFile fname;
  mret (<[key := base64.EncodeToString decrypted]> data).

Fixpoint parseFileSources (sources : list string) (data : kvMap) : IO kvMap :=
  match sources with
  | [] => mret data
  | source :: rest =>
      data ← wrapping (CtxFileSource source) (parseFileSource source data);
      parseFileSources rest data
  end.

Definition parseInput (input : SopsSecretGenerator) : IO kvMap :=
  data ← parseEnvSources (EnvSources input) ∅;
  parseFileSources (FileSources input) data.

(** [for k, v := range sopsSecret.Annotations { if skip { continue }; annotations[k] = v }] *)
Definition copyAnnotations (from : kvMap) : kvMap :=
  map_fold
    (λ k v acc, if stripAnnotations !! k is Some _ then acc else <[k := v]> acc)
    ∅ from.

Definition generateSecret (sopsSecret : SopsSecretGenerator) : IO Secret :=
  data ← parseInput sopsSecret;
  let annotations := copyAnnotations (Annotations (gObjectMeta sopsSecret)) in
  let annotations :=
    if negb (DisableNameSuffixHash sopsSecret)
    then <["kustomize.config.k8s.io/needs-hash" := "true"]> annotations
    else annotations in
  let annotations :=
    if negb (String.eqb (Behavior sopsSecret) "")
    then <["kustomize.config.k8s.io/behavior" := Behavior sopsSecret]> annotations
    else annotations in
  mret
    {| sTypeMeta := {| APIVersion := "v1"; Kind := "Secret" |};
       sObjectMeta :=
         {| Name := Name (gObjectMeta sopsSecret);
            Namespace := Namespace (gObjectMeta sopsSecret);
            Labels := Labels (gObjectMeta sopsSecret);
            Annotations := annotations |};
       Data := data;
       sType := gType sopsSecret |}.

Definition readInput (manifestContent : string) : result SopsSecretGenerator :=
  match yaml_Unmarshal_generator host manifestContent zeroInput with
  | Err e => Err e
  | Ok input =>
      if negb (String.eqb (APIVersion (gTypeMeta input)) apiVersion)
         || negb (String.eqb (Kind (gTypeMeta input)) kind)
      then Err ErrInputType
      else if String.eqb (Name (gObjectMeta input)) "" then Err ErrInputName
      else Ok input
  end.

Definition processSopsSecretGenerator (manifestContent : string) : IO string :=
  input ← lift (readInput manifestContent);
  secret ← generateSecret input;
  lift (yaml_Marshal host secret).

(** The loop of [generateKRMManifest] over the items not yet visited;
    it yields the resource list as the function leaves it and the two
    values the function returns. *)
Fixpoint generateLoop (items generatedSecrets : list (KubeObject host))
    (rl : ResourceList (KubeObject host))
  : list Event * (ResourceList (KubeObject host) * bool * option error) :=
  match items with
  | [] => ([], (mkResourceList generatedSecrets (Results rl), true, None))
  | sopsSecretGeneratorManifest :: rest =>
      match processSopsSecretGenerator
              (KubeObject_String host sopsSecretGeneratorManifest) with
      | (ev, Err err) => (ev, (LogResult rl err, false, Some err))
      | (ev, Ok secretManifest) =>
          match fn_ParseKubeObject host secretManifest with
          | Err err => (ev, (LogResult rl err, false, Some err))
          | Ok secretKubeObject =>
              let '(ev', out) :=
                generateLoop rest (generatedSecrets ++ [secretKubeObject]) rl in
              (ev ++ ev', out)
          end
      end
  end.

Definition generateKRMManifest (rl : ResourceList (KubeObject host))
  : list Event * (ResourceList (KubeObject host) * bool * option error) :=
  generateLoop (Items rl) [] rl.

End Program.

(** ** A small host to run the program on

    Files are served from a fixed table and are stored in the clear
    (decryption is the identity); formats follow the file extension as in
    sops; manifests are decoded from a fixed table of documents. *)

Module demo.

Definition HasSuffix (s suffix : string) : bool :=
  String.eqb
    (string_drop (String.length s - String.length suffix) s) suffix
  && Nat.leb (String.length suffix) (String.length s).

Definition FormatForPath (p : string) : Format :=
  if HasSuffix p ".yaml" || HasSuffix p ".yml" then Yaml
  else if HasSuffix p ".json" then Json
  else if HasSuffix p ".env" then Dotenv
  else if HasSuffix p ".ini" then Ini
  else Binary.

Definition ReadFile (fileName : string) : result string :=
  if String.eqb fileName "a.env" then Ok "FOO=secret"
  else if String.eqb fileName "b.yaml" then Ok "FOO: other"
  else if String.eqb fileName "plain.txt" then Ok ("secret" +:+ String LF "")
  else if String.eqb fileName "FOO" then Ok "blob"
  else Err (ErrExternal "no such file or directory").

Definition Unmarshal_kvMap (content : string) : result kvMap :=
  if String.eqb content "FOO: other" then Ok {[ "FOO" := "other" ]}
  else Err (ErrExternal "cannot unmarshal").

Definition generator (k name : string) (annotations : kvMap)
    (envs files : list string) (noHash : bool) : SopsSecretGenerator :=
  {| gTypeMeta := {| APIVersion := apiVersion; Kind := k |};
     gObjectMeta :=
       {| Name := name; Namespace := ""; Labels := ∅;
          Annotations := annotations |};
     EnvSources := envs; FileSources := files; Behavior := "";
     DisableNameSuffixHash := noHash; gType := "" |}.

Definition good : SopsSecretGenerator :=
  generator kind "my-secret"
    {[ "config.kubernetes.io/function" := "exec" ]}
    ["a.env"] ["secret-file.txt=plain.txt"] false.

Definition Unmarshal_generator (content : string) (into : SopsSecretGenerator)
  : result SopsSecretGenerator :=
  if String.eqb content "good" then Ok good
  else if String.eqb content "wrong-kind" then
    Ok (generator "Secret" "my-secret" ∅ ["a.env"] [] false)
  else if String.eqb content "no-name" then
    Ok (generator kind "" ∅ ["a.env"] [] false)
  else if String.eqb content "missing-file" then
    Ok (generator kind "other" ∅ ["gone.env"] [] false)
  else Err (ErrExternal "cannot unmarshal").

Definition Marshal (secret : Secret) : result string :=
  Ok ("Secret " +:+ Name (sObjectMeta secret)).

Definition host : Host :=
  {| KubeObject := string;
     os_ReadFile := ReadFile;
     formats_FormatForPath := FormatForPath;
     decrypt_DataWithFormat := λ content _, Ok content;
     yaml_Unmarshal_generator := Unmarshal_generator;
     yaml_Unmarshal_kvMap := Unmarshal_kvMap;
     json_Unmarshal_kvMap := Unmarshal_kvMap;
     yaml_Marshal := Marshal;
     fn_ParseKubeObject := λ manifest, Ok manifest;
     KubeObject_String := λ o, o |}.

End demo.

(** ** Notions used to state the properties *)

(** One turn of the loop of [generateKRMManifest]: the manifest of the
    Secret is produced and parsed back into an object. *)
Definition transformed host (item : KubeObject host)
  : list Event * result (KubeObject host) :=
  match processSopsSecretGenerator host (KubeObject_String host item) with
  | (ev, Ok secretManifest) => (ev, fn_ParseKubeObject host secretManifest)
  | (ev, Err err) => (ev, Err err)
  end.

(** The sources of a request in the order [parseInput] visits them. *)
Inductive Source : Type :=
  | EnvSrc (source : string)
  | FileSrc (source : string).

Definition allSources (input : SopsSecretGenerator) : list Source :=
  (EnvSrc <$> EnvSources input) ++ (FileSrc <$> FileSources input).

(** One turn of the loop of [parseEnvSources] or of [parseFileSources]. *)
Definition parseSource host (src : Source) (data : kvMap) : IO kvMap :=
  match src with
  | EnvSrc source =>
      wrapping (CtxEnvSource source) (parseEnvSource host source data)
  | FileSrc source =>
      wrapping (CtxFileSource source) (parseFileSource host source data)
  end.

Fixpoint parseSources host (srcs : list Source) (data : kvMap) : IO kvMap :=
  match srcs with
  | [] => mret data
  | src :: rest => data ← parseSource host src data; parseSources host rest data
  end.

(** What a source puts in the map when it is the only one. *)
Definition entries host (src : Source) : result kvMap :=
  outcome (parseSource host src ∅).

Definition sourceEvents host (src : Source) : list Event :=
  events (parseSource host src ∅).

(** The file a source is read from. *)
Definition sourcePath (src : Source) : option string :=
  match src with
  | EnvSrc source => Some source
  | FileSrc source =>
      match parseFileName source with
      | Ok (_, fname) => Some fname
      | Err _ => None
      end
  end.

(** The context a failure of a source is wrapped in. *)
Definition sourceContext (src : Source) : context :=
  match src with
  | EnvSrc source => CtxEnvSource source
  | FileSrc source => CtxFileSource source
  end.

(** A value that is the base64 encoding of some bytes. *)
Definition encoded (v : string) : Prop := ∃ raw, v = base64.EncodeToString raw.

(** What holds of an entry written from a dotenv file: the key has no
    equals sign and no line feed and does not start with a hash, and the
    value encodes bytes without a line feed. *)
Definition dotenvEntry (k v : string) : Prop :=
  strings.Count k equals = 0
  ∧ strings.Count k LF = 0
  ∧ (∀ rest, k ≠ String hash rest)
  ∧ ∃ raw, v = base64.EncodeToString raw ∧ strings.Count raw LF = 0.

(** A result with the entries of [d] added behind its own. *)
Definition over (d : kvMap) (r : result kvMap) : result kvMap :=
  match r with Ok m => Ok (m ∪ d) | Err e => Err e end.

(** The map after a run of sources: each one laid over what came before. *)
Definition layered (d : kvMap) (ms : list kvMap) : kvMap :=
  foldl (λ acc m, m ∪ acc) d ms.

Fixpoint lastByte (s : string) : option ascii :=
  match s with
  | "" => None
  | String c "" => Some c
  | String _ s' => lastByte s'
  end.

(** A line of [n] bytes, to try the scanner at the edge of its buffer. *)
Fixpoint padding (n : nat) : string :=
  match n with
  | O => ""
  | S n => String "a" (padding n)
  end.

Definition needsHash : string := "kustomize.config.k8s.io/needs-hash".

Definition demo_secret : Secret :=
  {| sTypeMeta := {| APIVersion := "v1"; Kind := "Secret" |};
     sObjectMeta :=
       {| Name := "my-secret"; Namespace := ""; Labels := ∅;
          Annotations := {[ needsHash := "true" ]} |};
     Data := <["secret-file.txt" := "c2VjcmV0Cg=="]> {[ "FOO" := "c2VjcmV0" ]};
     sType := "" |}.

(** * Properties *)

(** ** Facts about splitting *)

Lemma Cut_first (k v : string) (sep : ascii) :
  strings.Count k sep = 0 →
  strings.Cut (k +:+ String sep v) sep = Some (k, v).
Proof.
  induction k as [|c k IH]; simpl.
  - by rewrite Ascii.eqb_refl.
  - destruct (Ascii.eqb c sep); [done|]. intros Hk. by rewrite IH.
Qed.

Lemma Split_no_sep (s : string) (sep : ascii) :
  strings.Count s sep = 0 → strings.Split s sep = [s].
Proof.
  induction s as [|c s IH]; simpl; [done|].
  destruct (Ascii.eqb c sep); [done|]. intros Hs. by rewrite IH.
Qed.

Lemma Split_first (k v : string) (sep : ascii) :
  strings.Count k sep = 0 →
  strings.Split (k +:+ String sep v) sep = k :: strings.Split v sep.
Proof.
  induction k as [|c k IH]; simpl.
  - by rewrite Ascii.eqb_refl.
  - destruct (Ascii.eqb c sep); [done|]. intros Hk. by rewrite IH.
Qed.

Lemma Split_length (s : string) (sep : ascii) :
  length (strings.Split s sep) = S (strings.Count s sep).
Proof.
  induction s as [|c s IH]; simpl; [done|].
  destruct (Ascii.eqb c sep); simpl; [by rewrite IH|].
  destruct (strings.Split s sep); simpl in *; lia.
Qed.

Lemma string_app_cons (x : ascii) (a b : string) :
  String x a +:+ b = String x (a +:+ b).
Proof. reflexivity. Qed.

Lemma string_app_nil (b : string) : "" +:+ b = b.
Proof. reflexivity. Qed.

Lemma string_app_assoc (a b c : string) : (a +:+ b) +:+ c = a +:+ (b +:+ c).
Proof.
  induction a as [|x a IH]; [done|]. rewrite !string_app_cons. by rewrite IH.
Qed.

Lemma string_app_length (a b : string) :
  String.length (a +:+ b) = String.length a + String.length b.
Proof.
  induction a as [|x a IH]; [done|]. rewrite string_app_cons. simpl.
  by rewrite IH.
Qed.

Lemma Count_app (a b : string) (sep : ascii) :
  strings.Count (a +:+ b) sep = strings.Count a sep + strings.Count b sep.
Proof.
  induction a as [|x a IH]; [done|]. rewrite string_app_cons. simpl.
  rewrite IH. lia.
Qed.

Lemma lastByte_app (a b : string) :
  b ≠ "" → lastByte (a +:+ b) = lastByte b.
Proof.
  intros Hb. induction a as [|x a IH]; simpl; [done|].
  rewrite IH. destruct (a +:+ b) eqn:Hab; [|done].
  destruct a; simpl in Hab; [done|discriminate].
Qed.

Lemma lastByte_Some (s : string) (c : ascii) :
  lastByte s = Some c → ∃ p, s = p +:+ String c "".
Proof.
  induction s as [|x s IH]; simpl; [done|]. destruct s as [|y s].
  - intros [= ->]. by exists "".
  - intros H. destruct (IH H) as [p Hp]. exists (String x p).
    by rewrite string_app_cons, <-Hp.
Qed.

Lemma string_eqb_empty (s : string) :
  String.eqb s "" = match s with "" => true | _ => false end.
Proof. by destruct s. Qed.

Example base64_secret : base64.EncodeToString "secret" = "c2VjcmV0".
Proof. reflexivity. Qed.

Example dotenv_ex :
  parseDotEnvContent ("FOO=secret" +:+ String LF "") ∅
  = Ok {[ "FOO" := "c2VjcmV0" ]}.
Proof. vm_compute. reflexivity. Qed.

Example base64_padding :
  base64.EncodeToString ("secret" +:+ String LF "") = "c2VjcmV0Cg=="
  ∧ base64.EncodeToString "ab" = "YWI=" ∧ base64.EncodeToString "" = "".
Proof. by vm_compute. Qed.

(** U+00E9 in two bytes and U+3000 in three are well formed; a lone
    continuation byte, an overlong form and a surrogate are not. *)
Example utf8_valid :
  utf8.Valid (String "195" (String "169" "")) = true
  ∧ utf8.Valid (String "227" (String "128" (String "128" ""))) = true
  ∧ utf8.Valid (String "128" "") = false
  ∧ utf8.Valid (String "192" (String "128" "")) = false
  ∧ utf8.Valid (String "237" (String "160" (String "128" ""))) = false.
Proof. by vm_compute. Qed.

(** Leading white space goes, whether a tab, a space or the three bytes
    of U+3000; white space further on stays. *)
Example trim_left :
  bytes.TrimLeftFunc
    (String "009" (String " " (String "227" (String "128" (String "128" "K =v")))))
    unicode.IsSpace = "K =v".
Proof. by vm_compute. Qed.

Example base_names :
  path.Base "" = "." ∧ path.Base "/" = "/" ∧ path.Base "a/b/" = "b"
  ∧ path.Base "a/b.txt" = "b.txt".
Proof. by vm_compute. Qed.

Example raw_lines :
  bufio.rawLines ("a" +:+ String LF (String LF ("b" +:+ String CR "")))
  = ["a"; ""; "b" +:+ String CR ""].
Proof. by vm_compute. Qed.

Example dotenv_comments_and_blanks :
  parseDotEnvContent
    ("# comment" +:+ String LF (String LF ("  #x=1" +:+ String LF "A=1"))) ∅
  = Ok {[ "A" := "MQ==" ]}.
Proof. by vm_compute. Qed.

(** A line of 65536 bytes does not fit the scanner; one byte less does. *)
Example dotenv_too_long :
  parseDotEnvContent ("K=" +:+ padding (N.to_nat 65534)) ∅ = Err ErrTooLong
  ∧ is_ok (parseDotEnvContent ("K=" +:+ padding (N.to_nat 65533)) ∅) = true.
Proof. by vm_compute. Qed.

Example dotenv_requires_value :
  parseDotEnvContent ("A=1" +:+ String LF "B") ∅
  = Err (Wrap (ErrRequiresValue "B") (CtxLine 1)).
Proof. by vm_compute. Qed.

(** The scenario of the specification: one dotenv source and one file
    source. *)
Example scenario :
  parseInput demo.host demo.good
  = ([EvReadFile "a.env"; EvDecrypt "FOO=secret" Dotenv;
      EvReadFile "plain.txt"; EvDecrypt ("secret" +:+ String LF "") Binary],
     Ok (<["secret-file.txt" := "c2VjcmV0Cg=="]> {[ "FOO" := "c2VjcmV0" ]})).
Proof. vm_compute. reflexivity. Qed.

(** ** The logging monad *)

Lemma bind_outcome {A B} (m : IO A) (f : A → IO B) :
  outcome (m ≫= f) =
    match outcome m with Ok a => outcome (f a) | Err e => Err e end.
Proof. destruct m as [ev [a|e]]; simpl; [|done]. by destruct (f a). Qed.

Lemma bind_events {A B} (m : IO A) (f : A → IO B) :
  events (m ≫= f) =
    match outcome m with
    | Ok a => events m ++ events (f a)
    | Err _ => events m
    end.
Proof. destruct m as [ev [a|e]]; simpl; [|done]. by destruct (f a). Qed.

Lemma lift_Ok_bind {A B} (a : A) (f : A → IO B) : lift (Ok a) ≫= f = f a.
Proof. unfold lift. simpl. by destruct (f a). Qed.

Lemma wrapping_outcome {A} ctx (m : IO A) :
  outcome (wrapping ctx m) =
    match outcome m with Ok a => Ok a | Err e => Err (Wrap e ctx) end.
Proof. by destruct m as [ev [a|e]]. Qed.

Lemma wrapping_events {A} ctx (m : IO A) :
  events (wrapping ctx m) = events m.
Proof. by destruct m as [ev [a|e]]. Qed.

(** ** Loops over maps *)

Lemma storeEncoded_lookup (d data : kvMap) (k : string) :
  storeEncoded d data !! k =
    match d !! k with
    | Some v => Some (base64.EncodeToString v)
    | None => data !! k
    end.
Proof.
  unfold storeEncoded. revert k.
  apply (map_fold_weak_ind (λ r m, ∀ k, r !! k =
           match m !! k with
           | Some v => Some (base64.EncodeToString v)
           | None => data !! k
           end)).
  - intros k. by rewrite lookup_empty.
  - intros i x m r Hi IH k. destruct (decide (i = k)) as [->|Hne].
    + by rewrite !lookup_insert_eq.
    + rewrite !lookup_insert_ne by done. apply IH.
Qed.

Lemma storeEncoded_union (d data : kvMap) :
  storeEncoded d data = (base64.EncodeToString <$> d) ∪ data.
Proof.
  apply map_eq. intros k.
  rewrite storeEncoded_lookup, lookup_union, lookup_fmap.
  destruct (d !! k); simpl; [by destruct (data !! k)|].
  by rewrite (left_id None _).
Qed.

Lemma copyAnnotations_lookup (from : kvMap) (k : string) :
  copyAnnotations from !! k =
    if stripAnnotations !! k is Some _ then None else from !! k.
Proof.
  unfold copyAnnotations. revert k.
  apply (map_fold_weak_ind (λ r m, ∀ k, r !! k =
           if stripAnnotations !! k is Some _ then None else m !! k)).
  - intros k. rewrite !lookup_empty. by destruct (stripAnnotations !! k).
  - intros i x m r Hi IH k. destruct (decide (i = k)) as [->|Hne].
    + destruct (stripAnnotations !! k) eqn:Hs.
      * rewrite IH, Hs. done.
      * by rewrite !lookup_insert_eq.
    + destruct (stripAnnotations !! i) eqn:Hs.
      * rewrite IH. by rewrite lookup_insert_ne.
      * rewrite !lookup_insert_ne by done. apply IH.
Qed.

(** ** Dotenv lines *)

(** C2 fails as stated: a line that is not valid UTF-8 is rejected even
    though, after its leading white space is stripped, it is not blank,
    does not start with a hash and holds an equals sign. *)
Lemma parseDotEnvLine_invalid_utf8_rejected :
  let line := String "255" "=x" in
  bytes.TrimLeftFunc line unicode.IsSpace = String "255" "" +:+ String equals "x"
  ∧ strings.Count (String "255" "") equals = 0
  ∧ parseDotEnvLine line ∅ = Err (ErrInvalidUTF8 line)
  ∧ parseDotEnvLine line ∅ ≠ Ok (<[String "255" "" := base64.EncodeToString "x"]> ∅).
Proof. by vm_compute. Qed.

(** C2, amended: a line of valid UTF-8 that, after its leading white
    space is stripped, reads [k=v] with no equals sign in [k] and no hash
    in front stores the base64 encoding of exactly [v] under [k]. *)
Theorem parseDotEnvLine_splits_at_first_equals
    (line k v : string) (data : kvMap) :
  utf8.Valid line = true →
  bytes.TrimLeftFunc line unicode.IsSpace = k +:+ String equals v →
  strings.Count k equals = 0 →
  (∀ k', k ≠ String hash k') →
  parseDotEnvLine line data = Ok (<[k := base64.EncodeToString v]> data).
Proof.
  intros Hvalid Htrim Hk Hhash. unfold parseDotEnvLine.
  rewrite Hvalid, Htrim. simpl negb. cbv iota.
  unfold strings.SplitN2. rewrite (Cut_first k v equals Hk).
  destruct k as [|c k]; simpl; [done|].
  destruct (Ascii.eqb_spec c hash) as [->|]; [|done].
  by destruct (Hhash k).
Qed.

Lemma parseDotEnvLine_splits_at_first_equals_witness :
  parseDotEnvLine "  KEY= a=b " ∅
  = Ok (<["KEY" := base64.EncodeToString " a=b "]> ∅).
Proof.
  apply (parseDotEnvLine_splits_at_first_equals "  KEY= a=b " "KEY" " a=b " ∅).
  - reflexivity.
  - reflexivity.
  - reflexivity.
  - intros k' H. discriminate H.
Defined.

(** C9 fails as stated: a line that starts with an equals sign is still
    rejected when it is not valid UTF-8. *)
Lemma parseDotEnvLine_empty_key_invalid_utf8 :
  let line := String equals (String "255" "") in
  bytes.TrimLeftFunc line unicode.IsSpace = String equals (String "255" "")
  ∧ parseDotEnvLine line ∅ = Err (ErrInvalidUTF8 line)
  ∧ is_ok (parseDotEnvLine line ∅) = false.
Proof. by vm_compute. Qed.

(** C9, amended: a line of valid UTF-8 whose first character after the
    leading white space is an equals sign is accepted, and stores the
    base64 encoding of the bytes after that sign under the empty key. *)
Theorem parseDotEnvLine_empty_key (line v : string) (data : kvMap) :
  utf8.Valid line = true →
  bytes.TrimLeftFunc line unicode.IsSpace = String equals v →
  parseDotEnvLine line data = Ok (<["" := base64.EncodeToString v]> data).
Proof.
  intros Hvalid Htrim. unfold parseDotEnvLine.
  rewrite Hvalid, Htrim. reflexivity.
Qed.

Lemma parseDotEnvLine_empty_key_witness :
  parseDotEnvLine " =v" ∅ = Ok (<["" := base64.EncodeToString "v"]> ∅).
Proof.
  apply (parseDotEnvLine_empty_key " =v" "v" ∅); reflexivity.
Defined.

(** ** File-source descriptors *)

Lemma stripTrailingSlashes_id (p : string) :
  lastByte p ≠ Some path.slash → path.stripTrailingSlashes p = p.
Proof.
  induction p as [|c p IH]; [done|]. destruct p as [|c' p].
  - simpl. by destruct (Ascii.eqb_spec c path.slash) as [->|].
  - intros H. specialize (IH H). simpl in *. by rewrite IH.
Qed.

Lemma afterLastSlash_final (dir name : string) :
  strings.Count name path.slash = 0 →
  path.afterLastSlash (dir +:+ String path.slash name) = name.
Proof.
  intros Hname. induction dir as [|c dir IH].
  - simpl. by rewrite Hname.
  - rewrite string_app_cons. cbn [path.afterLastSlash].
    rewrite Count_app. simpl. rewrite IH.
    by destruct (strings.Count dir path.slash + _) eqn:E; [lia|].
Qed.

Lemma lastByte_Count (s : string) (c : ascii) :
  lastByte s = Some c → 1 ≤ strings.Count s c.
Proof.
  intros H. apply lastByte_Some in H as [q ->].
  rewrite Count_app. simpl. rewrite Ascii.eqb_refl. lia.
Qed.

(** The base name of [dir/name] is [name]. *)
Lemma Base_final_segment (dir name : string) :
  name ≠ "" → strings.Count name path.slash = 0 →
  path.Base (dir +:+ String path.slash name) = name.
Proof.
  intros Hne Hname. unfold path.Base.
  destruct (String.eqb_spec (dir +:+ String path.slash name) "") as [E|_].
  { by destruct dir. }
  assert (lastByte (dir +:+ String path.slash name) ≠ Some path.slash) as Hlast.
  { rewrite lastByte_app by done. destruct name as [|c name]; [done|].
    intros Hl. apply (lastByte_Count (String c name)) in Hl. lia. }
  rewrite stripTrailingSlashes_id, afterLastSlash_final by done.
  by destruct name.
Qed.

Lemma afterLastSlash_plain (p : string) :
  strings.Count p path.slash = 0 → path.afterLastSlash p = p.
Proof.
  destruct p as [|c p]; [done|]. simpl.
  destruct (Ascii.eqb c path.slash); [done|]. simpl. by intros ->.
Qed.

(** The base name of a name without a slash is the name itself. *)
Lemma Base_plain (name : string) :
  name ≠ "" → strings.Count name path.slash = 0 → path.Base name = name.
Proof.
  intros Hne Hname. unfold path.Base.
  destruct (String.eqb_spec name "") as [|_]; [done|].
  rewrite stripTrailingSlashes_id, afterLastSlash_plain; [by destruct name|done|].
  intros Hl. apply lastByte_Count in Hl. lia.
Qed.

Lemma Count_le_length (p : string) (c : ascii) :
  strings.Count p c ≤ String.length p.
Proof.
  induction p as [|x p IH]; simpl; [done|].
  destruct (Ascii.eqb x c); simpl; lia.
Qed.

Lemma stripTrailingSlashes_slashes (p : string) :
  strings.Count p path.slash = String.length p →
  path.stripTrailingSlashes p = "".
Proof.
  induction p as [|x p IH]; [done|]. simpl.
  pose proof (Count_le_length p path.slash) as Hle.
  destruct (Ascii.eqb x path.slash); simpl; [|lia].
  intros [= H]. by rewrite IH.
Qed.

Lemma stripTrailingSlashes_app (x trail : string) :
  strings.Count trail path.slash = String.length trail →
  path.stripTrailingSlashes (x +:+ trail) = path.stripTrailingSlashes x.
Proof.
  intros Htrail. induction x as [|c x IH].
  - rewrite string_app_nil. by apply stripTrailingSlashes_slashes.
  - rewrite string_app_cons. cbn [path.stripTrailingSlashes]. by rewrite IH.
Qed.

(** The base name of [dir name trail], where [dir] is empty or ends in a
    slash, [name] is a segment and [trail] is made of slashes, is
    [name]. *)
Lemma Base_segment (dir name trail : string) :
  dir = "" ∨ lastByte dir = Some path.slash →
  name ≠ "" → strings.Count name path.slash = 0 →
  strings.Count trail path.slash = String.length trail →
  path.Base (dir +:+ name +:+ trail) = name.
Proof.
  intros Hdir Hne Hname Htrail.
  assert (lastByte name ≠ Some path.slash) as Hlast.
  { intros Hl. apply lastByte_Count in Hl. lia. }
  unfold path.Base.
  destruct (String.eqb_spec (dir +:+ name +:+ trail) "") as [E|_].
  { destruct dir; [|done]. by destruct name. }
  rewrite <-string_app_assoc, stripTrailingSlashes_app by done.
  rewrite stripTrailingSlashes_id by (by rewrite lastByte_app).
  assert (path.afterLastSlash (dir +:+ name) = name) as ->.
  { destruct Hdir as [->|Hdir].
    - rewrite string_app_nil. by apply afterLastSlash_plain.
    - apply lastByte_Some in Hdir as [d ->].
      rewrite string_app_assoc, string_app_cons, string_app_nil.
      by apply afterLastSlash_final. }
  by destruct name.
Qed.

(** Every path is empty, or made of slashes only, or of the form
    [dir name trail] above. *)
Lemma path_shapes (p : string) :
  p = ""
  ∨ (p ≠ "" ∧ strings.Count p path.slash = String.length p)
  ∨ ∃ dir name trail,
      p = dir +:+ name +:+ trail
      ∧ (dir = "" ∨ lastByte dir = Some path.slash)
      ∧ name ≠ "" ∧ strings.Count name path.slash = 0
      ∧ strings.Count trail path.slash = String.length trail.
Proof.
  induction p as [|c p IH]; [by left|]. right.
  destruct (Ascii.eqb_spec c path.slash) as [->|Hc].
  - destruct IH as [->|[[Hne Hall]|(dir & name & trail & -> & Hdir & Hn)]].
    + by left.
    + left. split; [done|]. simpl. by rewrite Hall.
    + right. exists (String path.slash dir), name, trail.
      split; [done|]. split; [|done]. right.
      destruct Hdir as [->|Hdir]; [done|]. simpl. rewrite Hdir.
      by destruct dir.
  - right.
    assert (Ascii.eqb c path.slash = false) as Hcb
      by (by destruct (Ascii.eqb_spec c path.slash)).
    destruct IH as [->|[[Hne Hall]|(dir & name & trail & -> & Hdir & Hn)]].
    + exists "", (String c ""), "".
      split; [reflexivity|]. split; [by left|]. split; [done|].
      split; [simpl; by rewrite Hcb|done].
    + exists "", (String c ""), p.
      split; [reflexivity|]. split; [by left|]. split; [done|].
      split; [simpl; by rewrite Hcb|done].
    + destruct Hn as (Hne & Hname & Htrail).
      destruct Hdir as [->|Hdir].
      * exists "", (String c name), trail.
        split; [by rewrite !string_app_nil|]. split; [by left|].
        split; [done|]. split; [simpl; by rewrite Hcb|done].
      * exists (String c dir), name, trail.
        split; [done|]. split; [|done]. right. simpl. rewrite Hdir.
        by destruct dir.
Qed.

(** C3: a descriptor without an equals sign names the file and is keyed
    by its base name: the last segment of the descriptor, slashes after
    it left aside; a dot for the empty descriptor and a slash for one
    made of slashes only; every descriptor is of one of these three
    shapes.  With one equals sign the descriptor is [key=path], and an
    empty side is reported by the error for that side; with more it is
    rejected as ambiguous. *)
Theorem parseFileName_cases (source : string) :
  (strings.Count source equals = 0 →
   parseFileName source = Ok (path.Base source, source)
   ∧ (source ≠ "" → strings.Count source path.slash = 0 →
      path.Base source = source)
   ∧ (∀ dir name,
        source = dir +:+ String path.slash name →
        name ≠ "" → strings.Count name path.slash = 0 →
        path.Base source = name)
   ∧ (source = "" → path.Base source = ".")
   ∧ (source ≠ "" → strings.Count source path.slash = String.length source →
      path.Base source = "/")
   ∧ (∀ dir name trail,
        source = dir +:+ name +:+ trail →
        dir = "" ∨ lastByte dir = Some path.slash →
        name ≠ "" → strings.Count name path.slash = 0 →
        strings.Count trail path.slash = String.length trail →
        path.Base source = name)
   ∧ (source = ""
      ∨ (source ≠ "" ∧ strings.Count source path.slash = String.length source)
      ∨ ∃ dir name trail,
          source = dir +:+ name +:+ trail
          ∧ (dir = "" ∨ lastByte dir = Some path.slash)
          ∧ name ≠ "" ∧ strings.Count name path.slash = 0
          ∧ strings.Count trail path.slash = String.length trail))
  ∧ (∀ key fn,
       source = key +:+ String equals fn →
       strings.Count key equals = 0 → strings.Count fn equals = 0 →
       parseFileName source =
         if String.eqb key "" then Err (ErrKeyMissing fn)
         else if String.eqb fn "" then Err (ErrPathMissing key)
         else Ok (key, fn))
  ∧ (2 ≤ strings.Count source equals →
     parseFileName source = Err ErrAmbiguousDelimiter).
Proof.
  unfold parseFileName. split; [|split].
  - intros H. rewrite Split_no_sep by done. split; [done|].
    split; [apply Base_plain|]. split.
    { intros dir name -> Hne Hname. by apply Base_final_segment. }
    split; [by intros ->|]. split.
    { intros Hne Hall. unfold path.Base.
      destruct (String.eqb_spec source "") as [|_]; [done|].
      by rewrite stripTrailingSlashes_slashes. }
    split; [|apply path_shapes].
    intros dir name trail -> Hdir Hne Hname Htrail. by apply Base_segment.
  - intros key fn -> Hk Hf. by rewrite Split_first, Split_no_sep.
  - intros H. pose proof (Split_length source equals) as Hlen.
    destruct (strings.Split source equals) as [|a [|b [|c l]]];
      simpl in Hlen; try lia; done.
Qed.

Lemma parseFileName_cases_witness :
  parseFileName "dir/bar.txt" = Ok ("bar.txt", "dir/bar.txt")
  ∧ parseFileName "bar.txt" = Ok ("bar.txt", "bar.txt")
  ∧ parseFileName "a/b//" = Ok ("b", "a/b//")
  ∧ parseFileName "" = Ok (".", "")
  ∧ parseFileName "///" = Ok ("/", "///")
  ∧ parseFileName "foo=bar.txt" = Ok ("foo", "bar.txt")
  ∧ parseFileName "=bar.txt" = Err (ErrKeyMissing "bar.txt")
  ∧ parseFileName "foo=" = Err (ErrPathMissing "foo")
  ∧ parseFileName "a=b=c" = Err ErrAmbiguousDelimiter.
Proof.
  refine (conj _ (conj _ (conj _ (conj _ (conj _
            (conj _ (conj _ (conj _ _)))))))).
  - destruct (proj1 (parseFileName_cases "dir/bar.txt"))
      as (H & _ & Hbase & _); [reflexivity|].
    rewrite H. by rewrite (Hbase "dir" "bar.txt").
  - destruct (proj1 (parseFileName_cases "bar.txt"))
      as (H & Hbase & _); [reflexivity|].
    rewrite H. by rewrite Hbase.
  - destruct (proj1 (parseFileName_cases "a/b//"))
      as (H & _ & _ & _ & _ & Hseg & _); [reflexivity|].
    rewrite H. rewrite (Hseg "a/" "b" "//").
    + reflexivity.
    + reflexivity.
    + right. reflexivity.
    + discriminate.
    + reflexivity.
    + reflexivity.
  - destruct (proj1 (parseFileName_cases ""))
      as (H & _ & _ & Hempty & _); [reflexivity|].
    rewrite H. by rewrite Hempty.
  - destruct (proj1 (parseFileName_cases "///"))
      as (H & _ & _ & _ & Hslashes & _); [reflexivity|].
    rewrite H. by rewrite Hslashes.
  - apply (proj1 (proj2 (parseFileName_cases "foo=bar.txt")) "foo" "bar.txt");
      reflexivity.
  - apply (proj1 (proj2 (parseFileName_cases "=bar.txt")) "" "bar.txt");
      reflexivity.
  - apply (proj1 (proj2 (parseFileName_cases "foo=")) "foo" ""); reflexivity.
  - apply (proj2 (proj2 (parseFileName_cases "a=b=c"))). simpl. lia.
Defined.

(** ** Assembling the Secret *)

Lemma generateSecret_annotations host sopsSecret secret (k : string) :
  outcome (generateSecret host sopsSecret) = Ok secret →
  Annotations (sObjectMeta secret) !! k =
    if decide (k = "kustomize.config.k8s.io/behavior"
               ∧ Behavior sopsSecret ≠ "")
    then Some (Behavior sopsSecret)
    else if decide (k = needsHash ∧ DisableNameSuffixHash sopsSecret = false)
    then Some "true"
    else copyAnnotations (Annotations (gObjectMeta sopsSecret)) !! k.
Proof.
  unfold generateSecret. rewrite bind_outcome.
  destruct (outcome (parseInput host sopsSecret)) as [data|e]; [|done].
  simpl. intros [= <-]. simpl.
  destruct (String.eqb_spec (Behavior sopsSecret) "") as [Hb|Hb]; simpl.
  - rewrite decide_False by (intros [_ ?]; done).
    destruct (DisableNameSuffixHash sopsSecret); simpl.
    + by rewrite decide_False by (intros [_ ?]; done).
    + destruct (decide (k = needsHash)) as [->|Hk].
      * rewrite decide_True by done. by rewrite lookup_insert_eq.
      * rewrite decide_False by (intros [? _]; done).
        by rewrite lookup_insert_ne.
  - destruct (decide (k = "kustomize.config.k8s.io/behavior")) as [->|Hk].
    + rewrite decide_True by done. by rewrite lookup_insert_eq.
    + rewrite decide_False by (intros [? _]; done).
      rewrite lookup_insert_ne by done.
      destruct (DisableNameSuffixHash sopsSecret); simpl.
      * by rewrite decide_False by (intros [_ ?]; done).
      * destruct (decide (k = needsHash)) as [->|Hk'].
        -- rewrite decide_True by done. by rewrite lookup_insert_eq.
        -- rewrite decide_False by (intros [? _]; done).
           by rewrite lookup_insert_ne.
Qed.

(** C5: whatever annotations the request carries, the annotations of a
    generated Secret hold neither [config.kubernetes.io/local-config] nor
    [config.kubernetes.io/function]. *)
Theorem generateSecret_strips_annotations host sopsSecret secret :
  outcome (generateSecret host sopsSecret) = Ok secret →
  Annotations (sObjectMeta secret) !! "config.kubernetes.io/local-config" = None
  ∧ Annotations (sObjectMeta secret) !! "config.kubernetes.io/function" = None.
Proof.
  intros H. split.
  - rewrite (generateSecret_annotations _ _ _ _ H).
    rewrite decide_False by (intros [? _]; done).
    rewrite decide_False by (intros [? _]; done).
    by rewrite copyAnnotations_lookup.
  - rewrite (generateSecret_annotations _ _ _ _ H).
    rewrite decide_False by (intros [? _]; done).
    rewrite decide_False by (intros [? _]; done).
    by rewrite copyAnnotations_lookup.
Qed.

Lemma generateSecret_strips_annotations_witness :
  Annotations (gObjectMeta demo.good) !! "config.kubernetes.io/function"
    = Some "exec"
  ∧ Annotations (sObjectMeta demo_secret) !! "config.kubernetes.io/local-config"
    = None
  ∧ Annotations (sObjectMeta demo_secret) !! "config.kubernetes.io/function"
    = None.
Proof.
  split; [by vm_compute|].
  apply (generateSecret_strips_annotations demo.host demo.good demo_secret).
  by vm_compute.
Defined.

(** C6 fails as stated: a request that disables the name suffix hash but
    itself carries the annotation [needs-hash: true] yields a Secret that
    has the annotation, because request annotations are copied through. *)
Lemma generateSecret_needs_hash_copied :
  let request :=
    demo.generator kind "my-secret" {[ needsHash := "true" ]} [] [] true in
  DisableNameSuffixHash request = true
  ∧ ∃ secret,
      outcome (generateSecret demo.host request) = Ok secret
      ∧ Annotations (sObjectMeta secret) !! needsHash = Some "true".
Proof. split; [done|]. eexists. split; by vm_compute. Qed.

(** C6, amended: in a generated Secret the annotation [needs-hash] is
    ["true"] when [disableNameSuffixHash] is false; when it is true the
    assembler adds nothing, and the Secret has the annotation exactly
    when the request's own annotations have it, with the request's
    value. *)
Theorem generateSecret_needs_hash host sopsSecret secret :
  outcome (generateSecret host sopsSecret) = Ok secret →
  Annotations (sObjectMeta secret) !! needsHash =
    if DisableNameSuffixHash sopsSecret
    then Annotations (gObjectMeta sopsSecret) !! needsHash
    else Some "true".
Proof.
  intros H. rewrite (generateSecret_annotations _ _ _ _ H).
  rewrite decide_False by (intros [? _]; done).
  destruct (DisableNameSuffixHash sopsSecret).
  - rewrite decide_False by (intros [_ ?]; done).
    by rewrite copyAnnotations_lookup.
  - by rewrite decide_True.
Qed.

Lemma generateSecret_needs_hash_witness :
  Annotations (sObjectMeta demo_secret) !! needsHash = Some "true".
Proof.
  apply (generateSecret_needs_hash demo.host demo.good demo_secret).
  by vm_compute.
Defined.

(** ** Validation *)

(** C1: a document that decodes to a request with another apiVersion,
    another kind or an empty name is rejected with a validation error;
    no manifest comes out, no file is read and nothing is decrypted, and a
    batch that starts with it ends there with its items untouched. *)
Theorem processSopsSecretGenerator_validates_first
    host (manifestContent : string) (input : SopsSecretGenerator) :
  yaml_Unmarshal_generator host manifestContent zeroInput = Ok input →
  APIVersion (gTypeMeta input) ≠ apiVersion
  ∨ Kind (gTypeMeta input) ≠ kind
  ∨ Name (gObjectMeta input) = "" →
  ∃ err,
    (err = ErrInputType ∨ err = ErrInputName)
    ∧ readInput host manifestContent = Err err
    ∧ processSopsSecretGenerator host manifestContent = ([], Err err)
    ∧ ∀ o rest results,
        KubeObject_String host o = manifestContent →
        generateKRMManifest host (mkResourceList (o :: rest) results)
        = ([], (mkResourceList (o :: rest) (results ++ [err]),
                false, Some err)).
Proof.
  intros Hdec Hbad.
  assert (∃ err, (err = ErrInputType ∨ err = ErrInputName)
                 ∧ readInput host manifestContent = Err err) as (err & Herr & Hread).
  { unfold readInput. rewrite Hdec.
    destruct (String.eqb_spec (APIVersion (gTypeMeta input)) apiVersion);
      simpl; [|by eauto].
    destruct (String.eqb_spec (Kind (gTypeMeta input)) kind);
      simpl; [|by eauto].
    destruct (String.eqb_spec (Name (gObjectMeta input)) "");
      simpl; [by eauto|].
    by destruct Hbad as [?|[?|?]]. }
  assert (processSopsSecretGenerator host manifestContent = ([], Err err))
    as Hproc.
  { unfold processSopsSecretGenerator. by rewrite Hread. }
  exists err. do 3 (split; [done|]).
  intros o rest results Ho. unfold generateKRMManifest. simpl.
  by rewrite Ho, Hproc.
Qed.

Lemma processSopsSecretGenerator_validates_first_witness :
  ∃ err,
    (err = ErrInputType ∨ err = ErrInputName)
    ∧ readInput demo.host "wrong-kind" = Err err
    ∧ processSopsSecretGenerator demo.host "wrong-kind" = ([], Err err)
    ∧ ∀ o rest results,
        KubeObject_String demo.host o = "wrong-kind" →
        generateKRMManifest demo.host (mkResourceList (o :: rest) results)
        = ([], (mkResourceList (o :: rest) (results ++ [err]),
                false, Some err)).
Proof.
  apply (processSopsSecretGenerator_validates_first demo.host "wrong-kind"
           (demo.generator "Secret" "my-secret" ∅ ["a.env"] [] false)).
  - reflexivity.
  - right; left. discriminate.
Defined.

(** ** Batches *)

Lemma generateLoop_aborts host done failing rest err generatedSecrets rl :
  Forall (λ o, is_ok (snd (transformed host o)) = true) done →
  snd (transformed host failing) = Err err →
  generateLoop host (done ++ failing :: rest) generatedSecrets rl
  = (concat (map (λ o, fst (transformed host o)) done)
       ++ fst (transformed host failing),
     (LogResult rl err, false, Some err)).
Proof.
  intros Hdone Hfail. revert generatedSecrets.
  induction Hdone as [|o done Ho _ IH]; intros generatedSecrets; simpl.
  - unfold transformed in *.
    destruct (processSopsSecretGenerator host (KubeObject_String host failing))
      as [ev [m|e]]; simpl in *.
    + by rewrite Hfail.
    + by simplify_eq.
  - unfold transformed in Ho |- * at 1.
    destruct (processSopsSecretGenerator host (KubeObject_String host o))
      as [ev [m|e]]; simpl in *; [|done].
    destruct (fn_ParseKubeObject host m) as [obj|e]; [|done].
    rewrite IH. simpl. by rewrite (assoc_L (++)).
Qed.

(** C7 fails as stated: when the second document of a batch is rejected,
    the resource list that comes with the error still holds the two input
    documents, and the Secret made from the first is not in it. *)
Lemma generateKRMManifest_discards_generated :
  let rl := mkResourceList (KO := KubeObject demo.host) ["good"; "wrong-kind"] [] in
  transformed demo.host "good"
  = ([EvReadFile "a.env"; EvDecrypt "FOO=secret" Dotenv;
      EvReadFile "plain.txt"; EvDecrypt ("secret" +:+ String LF "") Binary],
     Ok "Secret my-secret")
  ∧ ∃ events rl',
      generateKRMManifest demo.host rl = (events, (rl', false, Some ErrInputType))
      ∧ Items rl' = ["good"; "wrong-kind"]
      ∧ "Secret my-secret" ∉ Items rl'.
Proof.
  split; [by vm_compute|]. eexists _, _. split; [by vm_compute|].
  split; [done|]. simpl. intros H. apply list_elem_of_In in H. simpl in H.
  by destruct H as [?|[?|[]]].
Qed.

(** C7, amended: the first document that fails ends the batch: the
    function reports failure with that document's error, the error is
    logged in the results of the resource list, the items of the list are
    left as they came in (the Secrets made from the earlier documents are
    not put in the list), and the documents after it are not processed. *)
Theorem generateKRMManifest_aborts host rl done failing rest err :
  Items rl = done ++ failing :: rest →
  Forall (λ o, is_ok (snd (transformed host o)) = true) done →
  snd (transformed host failing) = Err err →
  generateKRMManifest host rl
  = (concat (map (λ o, fst (transformed host o)) done)
       ++ fst (transformed host failing),
     (mkResourceList (Items rl) (Results rl ++ [err]), false, Some err)).
Proof.
  intros Hitems Hdone Hfail. unfold generateKRMManifest.
  rewrite Hitems at 1. by rewrite (generateLoop_aborts _ _ _ _ err).
Qed.

Lemma generateKRMManifest_aborts_witness :
  generateKRMManifest demo.host
    (mkResourceList (KO := KubeObject demo.host)
       ["good"; "missing-file"; "good"] [])
  = ([EvReadFile "a.env"; EvDecrypt "FOO=secret" Dotenv;
      EvReadFile "plain.txt"; EvDecrypt ("secret" +:+ String LF "") Binary;
      EvReadFile "gone.env"],
     (mkResourceList ["good"; "missing-file"; "good"]
        [Wrap (Wrap (ErrExternal "no such file or directory") CtxCouldNotRead)
           (CtxEnvSource "gone.env")],
      false,
      Some (Wrap (Wrap (ErrExternal "no such file or directory") CtxCouldNotRead)
              (CtxEnvSource "gone.env")))).
Proof.
  apply (generateKRMManifest_aborts demo.host
           (mkResourceList (KO := KubeObject demo.host)
              ["good"; "missing-file"; "good"] [])
           ["good"] "missing-file" ["good"]).
  - reflexivity.
  - repeat constructor.
  - by vm_compute.
Defined.

(** ** Sources and the shared key space *)

Lemma parseDotEnvLine_over line (d0 d : kvMap) :
  parseDotEnvLine line (d0 ∪ d) = over d (parseDotEnvLine line d0).
Proof.
  unfold parseDotEnvLine. destruct (utf8.Valid line); simpl; [|done].
  destruct (bytes.TrimLeftFunc line unicode.IsSpace) as [|c l]; [done|].
  destruct (Ascii.eqb c hash); [done|].
  destruct (strings.SplitN2 (String c l) equals) as [|k [|v [|? ?]]];
    simpl; try done.
  by rewrite insert_union_l.
Qed.

Lemma parseDotEnvLoop_over lineNum scanner (d0 d : kvMap) :
  parseDotEnvLoop lineNum scanner (d0 ∪ d)
  = over d (parseDotEnvLoop lineNum scanner d0).
Proof.
  revert lineNum d0. induction scanner as [|l rest IH]; intros n d0; [done|].
  cbn [parseDotEnvLoop]. destruct (bufio.Scan (l :: rest)) as [line ?|[e|]];
    [|done|done].
  rewrite parseDotEnvLine_over.
  destruct (parseDotEnvLine _ d0) as [d1|e]; simpl; [apply IH|done].
Qed.

Lemma storeEncoded_over (m d0 d : kvMap) :
  storeEncoded m (d0 ∪ d) = storeEncoded m d0 ∪ d.
Proof. by rewrite !storeEncoded_union, (assoc_L (∪)). Qed.

Lemma parseSource_over host src (d0 d : kvMap) :
  parseSource host src (d0 ∪ d)
  = (events (parseSource host src d0), over d (outcome (parseSource host src d0))).
Proof.
  destruct src as [source|source]; simpl.
  - unfold parseEnvSource.
    destruct (decryptFile host source) as [ev [decrypted|e]]; [|done].
    simpl. rewrite !(right_id_L [] (++)).
    destruct (formats_FormatForPath host source); simpl; try done.
    + unfold parseDotEnvContent. rewrite parseDotEnvLoop_over.
      by destruct (parseDotEnvLoop 0 _ d0).
    + unfold parseJSONContent.
      destruct (json_Unmarshal_kvMap host decrypted); simpl; [|done].
      by rewrite storeEncoded_over.
    + unfold parseYAMLContent.
      destruct (yaml_Unmarshal_kvMap host decrypted); simpl; [|done].
      by rewrite storeEncoded_over.
  - unfold parseFileSource.
    destruct (parseFileName source) as [[key fname]|e]; [|done].
    simpl. destruct (decryptFile host fname) as [ev [decrypted|e]]; [|done].
    simpl. by rewrite insert_union_l.
Qed.

Lemma parseSource_alone host src (d : kvMap) :
  parseSource host src d = (sourceEvents host src, over d (entries host src)).
Proof.
  rewrite <-(left_id_L ∅ (∪) d) at 1. apply parseSource_over.
Qed.

Lemma parseEnvSources_parseSources host sources data :
  parseEnvSources host sources data
  = parseSources host (EnvSrc <$> sources) data.
Proof.
  revert data. induction sources as [|s rest IH]; intros data; [done|].
  simpl. destruct (wrapping _ _) as [ev [d|e]]; simpl; [|done].
  by rewrite IH.
Qed.

Lemma parseFileSources_parseSources host sources data :
  parseFileSources host sources data
  = parseSources host (FileSrc <$> sources) data.
Proof.
  revert data. induction sources as [|s rest IH]; intros data; [done|].
  simpl. destruct (wrapping _ _) as [ev [d|e]]; simpl; [|done].
  by rewrite IH.
Qed.

Lemma parseSources_app host srcs1 srcs2 data :
  parseSources host (srcs1 ++ srcs2) data
  = parseSources host srcs1 data ≫= parseSources host srcs2.
Proof.
  revert data. induction srcs1 as [|s rest IH]; intros data; simpl.
  - by destruct (parseSources host srcs2 data).
  - destruct (parseSource host s data) as [ev [d|e]]; simpl; [|done].
    rewrite IH. destruct (parseSources host rest d) as [ev1 [d1|e1]]; simpl;
      [|done].
    destruct (parseSources host srcs2 d1) as [ev2 r2]. by rewrite (assoc_L (++)).
Qed.

Lemma parseInput_parseSources host input :
  parseInput host input = parseSources host (allSources input) ∅.
Proof.
  unfold parseInput, allSources. rewrite parseSources_app.
  rewrite parseEnvSources_parseSources.
  destruct (parseSources host _ ∅) as [ev [d|e]]; simpl; [|done].
  by rewrite parseFileSources_parseSources.
Qed.

Lemma parseSources_layered host srcs ms data :
  Forall2 (λ src m, entries host src = Ok m) srcs ms →
  parseSources host srcs data
  = (concat (sourceEvents host <$> srcs), Ok (layered data ms)).
Proof.
  intros H. revert data. induction H as [|src m srcs ms Hm _ IH]; intros data.
  - done.
  - simpl. rewrite parseSource_alone, Hm. simpl. by rewrite IH.
Qed.

Lemma layered_lookup_None (d : kvMap) ms (k : string) :
  Forall (λ m : kvMap, m !! k = None) ms → layered d ms !! k = d !! k.
Proof.
  intros H. revert d. induction H as [|m ms Hm _ IH]; intros d; [done|].
  simpl. rewrite IH, lookup_union, Hm. by rewrite (left_id None _).
Qed.

Lemma layered_last_write (d : kvMap) pre m post (k v : string) :
  m !! k = Some v →
  Forall (λ m' : kvMap, m' !! k = None) post →
  layered d (pre ++ m :: post) !! k = Some v.
Proof.
  intros Hm Hpost. unfold layered. rewrite foldl_app. simpl.
  fold (layered (m ∪ foldl (λ acc m0, m0 ∪ acc) d pre) post).
  rewrite layered_lookup_None by done.
  by rewrite lookup_union, Hm, union_Some_l.
Qed.

Lemma decryptFile_success host source decrypted :
  outcome (decryptFile host source) = Ok decrypted →
  ∃ content,
    os_ReadFile host source = Ok content
    ∧ events (decryptFile host source)
      = [EvReadFile source;
         EvDecrypt content (formats_FormatForPath host source)].
Proof.
  unfold decryptFile. simpl.
  destruct (os_ReadFile host source) as [content|e]; simpl; [|done].
  destruct (decrypt_DataWithFormat host content _); simpl; [|done].
  intros _. by exists content.
Qed.

Lemma sourceEvents_success host src (m : kvMap) :
  entries host src = Ok m →
  ∃ fileName content,
    sourcePath src = Some fileName
    ∧ os_ReadFile host fileName = Ok content
    ∧ sourceEvents host src
      = [EvReadFile fileName;
         EvDecrypt content (formats_FormatForPath host fileName)].
Proof.
  unfold entries, sourceEvents.
  destruct src as [source|source]; simpl.
  - rewrite wrapping_outcome, wrapping_events. unfold parseEnvSource.
    rewrite bind_outcome, bind_events.
    destruct (outcome (decryptFile host source)) as [decrypted|e] eqn:Hd;
      [|done].
    intros _. destruct (decryptFile_success _ _ _ Hd) as (content & Hr & Hev).
    exists source, content. simpl. by rewrite Hev.
  - rewrite wrapping_outcome, wrapping_events. unfold parseFileSource.
    destruct (parseFileName source) as [[key fname]|e]; [|done].
    rewrite lift_Ok_bind, bind_outcome, bind_events.
    destruct (outcome (decryptFile host fname)) as [decrypted|e] eqn:Hd;
      [|done].
    intros _. destruct (decryptFile_success _ _ _ Hd) as (content & Hr & Hev).
    exists fname, content. simpl. by rewrite Hev.
Qed.

(** C4: when every source of a request can be read on its own, the
    request is read without any collision error; the sources are visited
    env sources first, then file sources, each list in its declared
    order, each one having its file read and then decrypted; all write
    into one map, and for a key written by several sources the value of
    the last one visited stands. *)
Theorem parseInput_last_write_wins host input (ms : list kvMap) :
  Forall2 (λ src m, entries host src = Ok m) (allSources input) ms →
  ∃ data,
    parseInput host input
    = (concat (sourceEvents host <$> allSources input), Ok data)
    ∧ Forall (λ src, ∃ fileName content,
                sourcePath src = Some fileName
                ∧ sourceEvents host src
                  = [EvReadFile fileName;
                     EvDecrypt content (formats_FormatForPath host fileName)])
        (allSources input)
    ∧ data = layered ∅ ms
    ∧ ∀ pre m post (k v : string),
        ms = pre ++ m :: post →
        m !! k = Some v →
        Forall (λ m' : kvMap, m' !! k = None) post →
        data !! k = Some v.
Proof.
  intros H. exists (layered ∅ ms). split; [|split; [|split; [done|]]].
  - rewrite parseInput_parseSources. by apply parseSources_layered.
  - induction H as [|src m srcs ms' Hm _ IH]; constructor; [|done].
    destruct (sourceEvents_success _ _ _ Hm) as (f & c & ? & ? & ?).
    by exists f, c.
  - intros pre m post k v -> Hm Hpost. by apply layered_last_write.
Qed.

Lemma parseInput_last_write_wins_witness :
  ∃ data,
    outcome (parseInput demo.host
               (demo.generator kind "my-secret" ∅
                  ["a.env"; "b.yaml"] ["FOO=plain.txt"] false)) = Ok data
    ∧ data !! "FOO" = Some "c2VjcmV0Cg==".
Proof.
  destruct (parseInput_last_write_wins demo.host
              (demo.generator kind "my-secret" ∅
                 ["a.env"; "b.yaml"] ["FOO=plain.txt"] false)
              [ {[ "FOO" := "c2VjcmV0" ]}; {[ "FOO" := "b3RoZXI=" ]};
                {[ "FOO" := "c2VjcmV0Cg==" ]} ])
    as (data & Hrun & _ & _ & Hlast).
  - repeat (constructor; [by vm_compute|]). constructor.
  - exists data. split; [by rewrite Hrun|].
    apply (Hlast [ {[ "FOO" := "c2VjcmV0" ]}; {[ "FOO" := "b3RoZXI=" ]} ]
             {[ "FOO" := "c2VjcmV0Cg==" ]} [] "FOO" "c2VjcmV0Cg==").
    + reflexivity.
    + by vm_compute.
    + constructor.
Defined.

(** ** Lines of a dotenv file *)



Lemma rawLines_line (l rest : string) :
  strings.Count l LF = 0 →
  bufio.rawLines (l +:+ String LF rest) = l :: bufio.rawLines rest.
Proof.
  induction l as [|x l IH]; simpl; [done|].
  destruct (Ascii.eqb x LF); [done|]. intros H. by rewrite IH.
Qed.

Lemma rawLines_nil (s : string) : bufio.rawLines s = [] → s = "".
Proof.
  destruct s as [|x s]; simpl; [done|].
  destruct (Ascii.eqb x LF); [done|]. by destruct (bufio.rawLines s).
Qed.

Lemma rawLines_complete (p rest : string) :
  bufio.rawLines (p +:+ String LF rest)
  = bufio.rawLines (p +:+ String LF "") ++ bufio.rawLines rest.
Proof.
  induction p as [|x p IH]; simpl; [done|].
  destruct (Ascii.eqb x LF); [by rewrite IH|]. rewrite IH.
  destruct (bufio.rawLines (p +:+ String LF "")) eqn:Hp; [|done].
  apply rawLines_nil in Hp. by destruct p.
Qed.

Lemma rawLines_complete_length (p : string) :
  1 ≤ length (bufio.rawLines (p +:+ String LF "")).
Proof.
  destruct (bufio.rawLines (p +:+ String LF "")) eqn:Hp; [|simpl; lia].
  apply rawLines_nil in Hp. by destruct p.
Qed.


Lemma parseDotEnvLoop_app lineNum scanner1 scanner2 (data : kvMap) :
  parseDotEnvLoop lineNum (scanner1 ++ scanner2) data =
    match parseDotEnvLoop lineNum scanner1 data with
    | Ok data => parseDotEnvLoop (lineNum + length scanner1) scanner2 data
    | Err e => Err e
    end.
Proof.
  revert lineNum data. induction scanner1 as [|l rest IH]; intros n data.
  - simpl. by rewrite Nat.add_0_r.
  - cbn [app parseDotEnvLoop bufio.Scan].
    destruct (_ <=? _)%N; [done|].
    destruct (parseDotEnvLine _ data) as [d|e]; [|done].
    rewrite IH. simpl. by rewrite Nat.add_succ_r.
Qed.

Lemma parseDotEnvLoop_step lineNum l rest (data : kvMap) :
  (N.of_nat (String.length l) < bufio.MaxScanTokenSize)%N →
  parseDotEnvLoop lineNum (l :: rest) data =
    match parseDotEnvLine
            (if Nat.eqb lineNum 0
             then bytes.TrimPrefix (bufio.dropCR l) utf8bom
             else bufio.dropCR l) data with
    | Err e => Err (Wrap e (CtxLine lineNum))
    | Ok data => parseDotEnvLoop (S lineNum) rest data
    end.
Proof.
  intros Hlen. cbn [parseDotEnvLoop bufio.Scan].
  by rewrite (proj2 (N.leb_gt _ _) Hlen).
Qed.






(** ** The byte order mark *)

Lemma TrimPrefix_bom (x : string) : bytes.TrimPrefix (utf8bom +:+ x) utf8bom = x.
Proof. by destruct x. Qed.

Lemma dropCR_app_r (a b : string) :
  b ≠ "" → bufio.dropCR (a +:+ b) = a +:+ bufio.dropCR b.
Proof.
  intros Hb. induction a as [|c a IH]; [done|].
  rewrite !string_app_cons. simpl. rewrite IH.
  destruct (a +:+ b) eqn:E; [|done]. destruct a; [done|discriminate].
Qed.

Lemma dropCR_bom (x : string) :
  bufio.dropCR (utf8bom +:+ x) = utf8bom +:+ bufio.dropCR x.
Proof. destruct x as [|c x]; [done|]. by apply dropCR_app_r. Qed.

Lemma parseDotEnvLine_bom_literal (k v : string) (data : kvMap) :
  strings.Count k equals = 0 →
  utf8.Valid (k +:+ String equals v) = true →
  parseDotEnvLine (utf8bom +:+ k +:+ String equals v) data
  = Ok (<[utf8bom +:+ k := base64.EncodeToString v]> data).
Proof.
  intros Hk Hvalid. unfold parseDotEnvLine.
  change (utf8.Valid (utf8bom +:+ k +:+ String equals v))
    with (utf8.Valid (k +:+ String equals v)).
  rewrite Hvalid.
  change (bytes.TrimLeftFunc (utf8bom +:+ k +:+ String equals v) unicode.IsSpace)
    with (utf8bom +:+ k +:+ String equals v).
  cbn [negb]. unfold strings.SplitN2.
  rewrite <-string_app_assoc, Cut_first; [done|].
  by rewrite Count_app, Hk.
Qed.

(** C8: a byte order mark in front of line 0 is taken off before the
    line is parsed; in front of a later line it is handed to the line
    parser with the rest of the line, and ends up in the key. *)
Theorem parseDotEnvContent_bom_first_line_only (x post : string) (data : kvMap) :
  strings.Count x LF = 0 →
  (N.of_nat (String.length x) + 3 < bufio.MaxScanTokenSize)%N →
  parseDotEnvContent (utf8bom +:+ x +:+ String LF post) data
  = match parseDotEnvLine (bufio.dropCR x) data with
    | Err e => Err (Wrap e (CtxLine 0))
    | Ok data => parseDotEnvLoop 1 (bufio.rawLines post) data
    end
  ∧ (∀ p data1,
       parseDotEnvContent (p +:+ String LF "") data = Ok data1 →
       let n := length (bufio.rawLines (p +:+ String LF "")) in
       1 ≤ n
       ∧ parseDotEnvContent
           (p +:+ String LF (utf8bom +:+ x +:+ String LF post)) data
         = match parseDotEnvLine (utf8bom +:+ bufio.dropCR x) data1 with
           | Err e => Err (Wrap e (CtxLine n))
           | Ok data => parseDotEnvLoop (S n) (bufio.rawLines post) data
           end)
  ∧ (∀ k v data1,
       bufio.dropCR x = k +:+ String equals v →
       strings.Count k equals = 0 →
       utf8.Valid (bufio.dropCR x) = true →
       parseDotEnvLine (utf8bom +:+ bufio.dropCR x) data1
       = Ok (<[utf8bom +:+ k := base64.EncodeToString v]> data1)).
Proof.
  intros Hx Hlen.
  assert (strings.Count (utf8bom +:+ x) LF = 0) as Hbx
    by (by rewrite Count_app, Hx).
  assert (N.of_nat (String.length (utf8bom +:+ x)) < bufio.MaxScanTokenSize)%N
    as Hblen by (rewrite string_app_length; simpl String.length; lia).
  split; [|split].
  - unfold parseDotEnvContent.
    rewrite <-string_app_assoc, rawLines_line by done.
    rewrite parseDotEnvLoop_step by done.
    by rewrite dropCR_bom, TrimPrefix_bom.
  - intros p data1 Hp n.
    assert (1 ≤ n) as Hn by apply rawLines_complete_length.
    split; [done|]. unfold parseDotEnvContent in *.
    rewrite rawLines_complete, parseDotEnvLoop_app, Hp.
    rewrite <-string_app_assoc, (rawLines_line (utf8bom +:+ x)) by done.
    rewrite parseDotEnvLoop_step by done. rewrite dropCR_bom.
    change (0 + length (bufio.rawLines (p +:+ String LF ""))) with n.
    clearbody n. by destruct n as [|n']; [lia|].
  - intros k v data1 Hkv Hk Hvalid. rewrite Hkv in *.
    by apply parseDotEnvLine_bom_literal.
Qed.

Lemma parseDotEnvContent_bom_first_line_only_witness :
  parseDotEnvContent (utf8bom +:+ "K=V" +:+ String LF "") ∅
  = Ok {[ "K" := "Vg==" ]}
  ∧ parseDotEnvContent
      ("A=1" +:+ String LF (utf8bom +:+ "K=V" +:+ String LF "")) ∅
    = Ok (<[utf8bom +:+ "K" := "Vg=="]> {[ "A" := "MQ==" ]}).
Proof.
  destruct (parseDotEnvContent_bom_first_line_only "K=V" "" ∅)
    as (Hfirst & Hlater & Hkey).
  - reflexivity.
  - reflexivity.
  - split.
    + rewrite Hfirst. reflexivity.
    + destruct (Hlater "A=1" {[ "A" := "MQ==" ]}) as [_ ->].
      * reflexivity.
      * rewrite (Hkey "K" "V") by reflexivity. reflexivity.
Defined.

(** * Further properties *)

(** ** Dotenv lines: what is skipped, what is refused *)

Lemma Cut_None (s : string) (sep : ascii) :
  strings.Count s sep = 0 → strings.Cut s sep = None.
Proof.
  induction s as [|c s IH]; simpl; [done|].
  destruct (Ascii.eqb c sep); [done|]. intros H. by rewrite IH.
Qed.

(** X1: a line of valid UTF-8 that is blank once its leading white space
    is gone, or whose first character after it is a hash, leaves the map
    as it is and is no error, whatever follows the hash. *)
Theorem parseDotEnvLine_skips_blank_and_comment (line : string) (data : kvMap) :
  utf8.Valid line = true →
  bytes.TrimLeftFunc line unicode.IsSpace = ""
  ∨ (∃ rest, bytes.TrimLeftFunc line unicode.IsSpace = String hash rest) →
  parseDotEnvLine line data = Ok data.
Proof.
  intros Hvalid Hskip. unfold parseDotEnvLine. rewrite Hvalid. simpl.
  destruct Hskip as [->|[rest ->]]; [done|]. by rewrite Ascii.eqb_refl.
Qed.

Lemma parseDotEnvLine_skips_blank_and_comment_witness :
  parseDotEnvLine "   # KEY=value" {[ "A" := "MQ==" ]} = Ok {[ "A" := "MQ==" ]}
  ∧ parseDotEnvLine (String "009" "  ") {[ "A" := "MQ==" ]}
    = Ok {[ "A" := "MQ==" ]}.
Proof.
  split.
  - apply parseDotEnvLine_skips_blank_and_comment; [reflexivity|].
    right. exists " KEY=value". reflexivity.
  - apply parseDotEnvLine_skips_blank_and_comment; [reflexivity|].
    left. reflexivity.
Defined.

(** X2: a line of valid UTF-8 that is neither blank nor a comment and
    holds no equals sign is refused; the error carries the line without
    its leading white space. *)
Theorem parseDotEnvLine_requires_value
    (line : string) (c : ascii) (rest : string) (data : kvMap) :
  utf8.Valid line = true →
  bytes.TrimLeftFunc line unicode.IsSpace = String c rest →
  c ≠ hash →
  strings.Count (String c rest) equals = 0 →
  parseDotEnvLine line data = Err (ErrRequiresValue (String c rest)).
Proof.
  intros Hvalid Htrim Hc Hno. unfold parseDotEnvLine.
  rewrite Hvalid, Htrim. simpl negb. cbv iota.
  destruct (Ascii.eqb_spec c hash) as [|_]; [done|].
  unfold strings.SplitN2. by rewrite Cut_None.
Qed.

Lemma parseDotEnvLine_requires_value_witness :
  parseDotEnvLine "  KEY value" ∅ = Err (ErrRequiresValue "KEY value").
Proof.
  apply (parseDotEnvLine_requires_value "  KEY value" "K" "EY value" ∅).
  - reflexivity.
  - reflexivity.
  - discriminate.
  - reflexivity.
Defined.

(** X3: an ASCII white-space byte in front of a line of valid UTF-8
    changes nothing: the line is read as without it. *)
Theorem parseDotEnvLine_leading_space (c : ascii) (line : string) (data : kvMap) :
  (byte_val c < 128)%N →
  unicode.IsSpace (byte_val c) = true →
  utf8.Valid line = true →
  parseDotEnvLine (String c line) data = parseDotEnvLine line data.
Proof.
  intros Hascii Hspace Hvalid. unfold parseDotEnvLine.
  assert (utf8.Valid (String c line) = true) as ->.
  { simpl. by rewrite (proj2 (N.ltb_lt _ _) Hascii). }
  rewrite Hvalid.
  assert (bytes.TrimLeftFunc (String c line) unicode.IsSpace
          = bytes.TrimLeftFunc line unicode.IsSpace) as ->; [|done].
  unfold bytes.TrimLeftFunc. cbn [bytes.trimLeftFrom].
  by rewrite (proj2 (N.ltb_lt _ _) Hascii), Hspace.
Qed.

Lemma parseDotEnvLine_leading_space_witness :
  parseDotEnvLine (String "009" "KEY=v") ∅ = parseDotEnvLine "KEY=v" ∅.
Proof.
  apply (parseDotEnvLine_leading_space "009" "KEY=v" ∅); reflexivity.
Defined.

(** ** Dotenv files: framing and failures *)

(** X4: reading dotenv content into a map succeeds or fails as reading
    it into the empty map does, with the same error; when it succeeds the
    result is what the content wrote laid over the map that was given,
    so no entry of that map is lost unless the content writes its key. *)
Theorem parseDotEnvContent_frame (content : string) (data : kvMap) :
  parseDotEnvContent content data
  = match parseDotEnvContent content ∅ with
    | Ok written => Ok (written ∪ data)
    | Err e => Err e
    end.
Proof.
  unfold parseDotEnvContent.
  rewrite <-(left_id_L ∅ (∪) data) at 1. apply parseDotEnvLoop_over.
Qed.

(** X5: the first line that is refused ends the reading with its error
    wrapped in its zero-based line number; what comes after that line
    plays no part. *)
Theorem parseDotEnvContent_reports_line (x post : string) (data : kvMap) (e : error) :
  strings.Count x LF = 0 →
  (N.of_nat (String.length x) < bufio.MaxScanTokenSize)%N →
  (parseDotEnvLine (bytes.TrimPrefix (bufio.dropCR x) utf8bom) data = Err e →
   parseDotEnvContent (x +:+ String LF post) data = Err (Wrap e (CtxLine 0)))
  ∧ (∀ p data1,
       parseDotEnvContent (p +:+ String LF "") data = Ok data1 →
       parseDotEnvLine (bufio.dropCR x) data1 = Err e →
       parseDotEnvContent (p +:+ String LF (x +:+ String LF post)) data
       = Err (Wrap e
                (CtxLine (length (bufio.rawLines (p +:+ String LF "")))))).
Proof.
  intros Hx Hlen. unfold parseDotEnvContent. split.
  - intros He. rewrite rawLines_line by done.
    rewrite parseDotEnvLoop_step by done. simpl Nat.eqb. cbv iota.
    by rewrite He.
  - intros p data1 Hp He.
    pose proof (rawLines_complete_length p) as Hn.
    rewrite rawLines_complete, parseDotEnvLoop_app, Hp.
    rewrite (rawLines_line x) by done.
    rewrite parseDotEnvLoop_step by done. simpl Nat.add.
    destruct (length (bufio.rawLines (p +:+ String LF ""))) as [|n]; [lia|].
    simpl Nat.eqb. cbv iota. by rewrite He.
Qed.

Lemma parseDotEnvContent_reports_line_witness :
  parseDotEnvContent ("oops" +:+ String LF "A=1") ∅
  = Err (Wrap (ErrRequiresValue "oops") (CtxLine 0))
  ∧ parseDotEnvContent
      ("A=1" +:+ String LF ("#" +:+ String LF ("oops" +:+ String LF "B=2"))) ∅
    = Err (Wrap (ErrRequiresValue "oops") (CtxLine 2)).
Proof.
  destruct (parseDotEnvContent_reports_line "oops" "A=1" ∅
              (ErrRequiresValue "oops")) as [Hfirst _]; [reflexivity..|].
  destruct (parseDotEnvContent_reports_line "oops" "B=2" ∅
              (ErrRequiresValue "oops")) as [_ Hlater]; [reflexivity..|].
  split.
  - apply Hfirst. reflexivity.
  - apply (Hlater ("A=1" +:+ String LF "#") {[ "A" := "MQ==" ]}); reflexivity.
Defined.

(** X6: a line of [MaxScanTokenSize] bytes or more stops the reading with
    the scanner's own error, which carries no line number; the lines
    before it must have been accepted. *)
Theorem parseDotEnvContent_too_long (x post : string) (data : kvMap) :
  strings.Count x LF = 0 →
  (bufio.MaxScanTokenSize <= N.of_nat (String.length x))%N →
  parseDotEnvContent (x +:+ String LF post) data = Err ErrTooLong
  ∧ (∀ p data1,
       parseDotEnvContent (p +:+ String LF "") data = Ok data1 →
       parseDotEnvContent (p +:+ String LF (x +:+ String LF post)) data
       = Err ErrTooLong).
Proof.
  intros Hx Hlen. apply N.leb_le in Hlen. unfold parseDotEnvContent. split.
  - rewrite rawLines_line by done.
    cbn [parseDotEnvLoop bufio.Scan]. by rewrite Hlen.
  - intros p data1 Hp.
    rewrite rawLines_complete, parseDotEnvLoop_app, Hp.
    rewrite (rawLines_line x) by done.
    cbn [parseDotEnvLoop bufio.Scan]. by rewrite Hlen.
Qed.

Lemma parseDotEnvContent_too_long_witness :
  parseDotEnvContent
    ("A=1" +:+ String LF (padding (N.to_nat 65536) +:+ String LF "B=2")) ∅
  = Err ErrTooLong.
Proof.
  destruct (parseDotEnvContent_too_long (padding (N.to_nat 65536)) "B=2" ∅)
    as [_ H].
  - by vm_compute.
  - by vm_compute.
  - apply (H "A=1" {[ "A" := "MQ==" ]}). reflexivity.
Defined.

(** ** Sources: reading, decrypting, dispatching *)

Lemma decryptFile_run host source content decrypted :
  os_ReadFile host source = Ok content →
  decrypt_DataWithFormat host content (formats_FormatForPath host source)
  = Ok decrypted →
  decryptFile host source
  = ([EvReadFile source; EvDecrypt content (formats_FormatForPath host source)],
     Ok decrypted).
Proof. intros Hr Hd. unfold decryptFile. simpl. by rewrite Hr; simpl; rewrite Hd. Qed.

(** X7: a file source is an opaque blob: the file named by the descriptor
    is read and decrypted with the format of its own path, and the whole
    plaintext is stored base64-encoded under the key; whatever the
    extension of the path, no structured extraction takes place. *)
Theorem parseFileSource_opaque host source key fname content decrypted (data : kvMap) :
  parseFileName source = Ok (key, fname) →
  os_ReadFile host fname = Ok content →
  decrypt_DataWithFormat host content (formats_FormatForPath host fname)
  = Ok decrypted →
  parseFileSource host source data
  = ([EvReadFile fname; EvDecrypt content (formats_FormatForPath host fname)],
     Ok (<[key := base64.EncodeToString decrypted]> data)).
Proof.
  intros Hname Hr Hd. unfold parseFileSource.
  rewrite Hname, lift_Ok_bind, (decryptFile_run _ _ _ _ Hr Hd). reflexivity.
Qed.

Lemma parseFileSource_opaque_witness :
  parseFileSource demo.host "config=a.env" ∅
  = ([EvReadFile "a.env"; EvDecrypt "FOO=secret" Dotenv],
     Ok {[ "config" := base64.EncodeToString "FOO=secret" ]}).
Proof.
  apply (parseFileSource_opaque demo.host "config=a.env" "config" "a.env"
           "FOO=secret" "FOO=secret" ∅); reflexivity.
Defined.

(** X8: an env source whose path has a format other than dotenv, YAML or
    JSON (INI and binary among them) is refused with the unknown-format
    error, and only after its file has been read and decrypted. *)
Theorem parseEnvSource_unknown_format host source content decrypted (data : kvMap) :
  formats_FormatForPath host source = Ini
  ∨ formats_FormatForPath host source = Binary →
  os_ReadFile host source = Ok content →
  decrypt_DataWithFormat host content (formats_FormatForPath host source)
  = Ok decrypted →
  parseEnvSource host source data
  = ([EvReadFile source; EvDecrypt content (formats_FormatForPath host source)],
     Err ErrUnknownFormat).
Proof.
  intros Hfmt Hr Hd. unfold parseEnvSource.
  rewrite (decryptFile_run _ _ _ _ Hr Hd). simpl.
  by destruct Hfmt as [->| ->].
Qed.

Lemma parseEnvSource_unknown_format_witness :
  parseEnvSource demo.host "FOO" ∅
  = ([EvReadFile "FOO"; EvDecrypt "blob" Binary], Err ErrUnknownFormat).
Proof.
  apply (parseEnvSource_unknown_format demo.host "FOO" "blob" "blob" ∅).
  - right. reflexivity.
  - reflexivity.
  - reflexivity.
Defined.

(** X9: YAML and JSON content that decodes to a flat map stores each of
    its values base64-encoded under its key and leaves the other keys of
    the map as they were. *)
Theorem parseStructuredContent_entries host content (d data : kvMap) :
  (yaml_Unmarshal_kvMap host content = Ok d →
   ∃ data',
     parseYAMLContent host content data = Ok data'
     ∧ ∀ k, data' !! k =
              match d !! k with
              | Some v => Some (base64.EncodeToString v)
              | None => data !! k
              end)
  ∧ (json_Unmarshal_kvMap host content = Ok d →
     ∃ data',
       parseJSONContent host content data = Ok data'
       ∧ ∀ k, data' !! k =
                match d !! k with
                | Some v => Some (base64.EncodeToString v)
                | None => data !! k
                end).
Proof.
  split; intros Hd; exists (storeEncoded d data).
  - unfold parseYAMLContent. rewrite Hd. split; [done|].
    apply storeEncoded_lookup.
  - unfold parseJSONContent. rewrite Hd. split; [done|].
    apply storeEncoded_lookup.
Qed.

Lemma parseStructuredContent_entries_witness :
  ∃ data',
    parseYAMLContent demo.host "FOO: other" {[ "BAR" := "MQ==" ]} = Ok data'
    ∧ data' !! "FOO" = Some "b3RoZXI=" ∧ data' !! "BAR" = Some "MQ==".
Proof.
  destruct (proj1 (parseStructuredContent_entries demo.host "FOO: other"
                     {[ "FOO" := "other" ]} {[ "BAR" := "MQ==" ]}))
    as (data' & Hrun & Hlook); [reflexivity|].
  exists data'. split; [done|]. split; rewrite Hlook; reflexivity.
Defined.

(** X10: a file source whose descriptor is malformed is refused before
    any file is read; the error is wrapped in the descriptor, and the
    file sources after it are not visited. *)
Theorem parseFileSources_bad_descriptor host source rest (data : kvMap) (e : error) :
  parseFileName source = Err e →
  parseFileSources host (source :: rest) data
  = ([], Err (Wrap e (CtxFileSource source))).
Proof.
  intros Hname. cbn [parseFileSources]. unfold parseFileSource.
  by rewrite Hname.
Qed.

Lemma parseFileSources_bad_descriptor_witness :
  parseFileSources demo.host ["a=b=plain.txt"; "plain.txt"] ∅
  = ([], Err (Wrap ErrAmbiguousDelimiter (CtxFileSource "a=b=plain.txt"))).
Proof.
  apply (parseFileSources_bad_descriptor demo.host "a=b=plain.txt"
           ["plain.txt"] ∅ ErrAmbiguousDelimiter).
  reflexivity.
Defined.

Lemma entries_error_wrapped host src (e : error) :
  entries host src = Err e → ∃ cause, e = Wrap cause (sourceContext src).
Proof.
  unfold entries. destruct src as [source|source]; simpl;
    rewrite wrapping_outcome.
  - destruct (outcome (parseEnvSource host source ∅)); [done|].
    intros [= <-]. by eexists.
  - destruct (outcome (parseFileSource host source ∅)); [done|].
    intros [= <-]. by eexists.
Qed.

(** X11: the first source that fails ends the reading of a request: the
    sources before it have been read, the ones after it are not touched,
    no map comes out, and the error is the cause wrapped in the
    descriptor of the failing source. *)
Theorem parseInput_fail_fast host input done failing rest (ms : list kvMap) (e : error) :
  allSources input = done ++ failing :: rest →
  Forall2 (λ src m, entries host src = Ok m) done ms →
  entries host failing = Err e →
  parseInput host input
  = (concat (sourceEvents host <$> done) ++ sourceEvents host failing, Err e)
  ∧ ∃ cause, e = Wrap cause (sourceContext failing).
Proof.
  intros Hall Hdone Hfail. split; [|by eapply entries_error_wrapped].
  rewrite parseInput_parseSources, Hall, parseSources_app.
  rewrite (parseSources_layered _ _ _ _ Hdone).
  cbn [mbind IO_bind parseSources].
  rewrite parseSource_alone, Hfail. reflexivity.
Qed.

Lemma parseInput_fail_fast_witness :
  parseInput demo.host
    (demo.generator kind "my-secret" ∅ ["a.env"; "gone.env"; "b.yaml"]
       ["plain.txt"] false)
  = ([EvReadFile "a.env"; EvDecrypt "FOO=secret" Dotenv; EvReadFile "gone.env"],
     Err (Wrap (Wrap (ErrExternal "no such file or directory") CtxCouldNotRead)
            (CtxEnvSource "gone.env"))).
Proof.
  apply (parseInput_fail_fast demo.host
           (demo.generator kind "my-secret" ∅ ["a.env"; "gone.env"; "b.yaml"]
              ["plain.txt"] false)
           [EnvSrc "a.env"] (EnvSrc "gone.env")
           [EnvSrc "b.yaml"; FileSrc "plain.txt"]
           [ {[ "FOO" := "c2VjcmV0" ]} ]).
  - reflexivity.
  - constructor; [by vm_compute|constructor].
  - by vm_compute.
Defined.

(** ** Every value of the data is base64 *)

Lemma parseDotEnvLine_encoded line (d d' : kvMap) :
  map_Forall (λ _ v, encoded v) d →
  parseDotEnvLine line d = Ok d' →
  map_Forall (λ _ v, encoded v) d'.
Proof.
  intros Hd. unfold parseDotEnvLine.
  destruct (utf8.Valid line); simpl; [|done].
  destruct (bytes.TrimLeftFunc line unicode.IsSpace) as [|c l];
    [by intros [= <-]|].
  destruct (Ascii.eqb c hash); [by intros [= <-]|].
  destruct (strings.SplitN2 (String c l) equals) as [|k [|v [|? ?]]];
    try done.
  intros [= <-]. apply map_Forall_insert_2; [by eexists|done].
Qed.

Lemma parseDotEnvLoop_encoded lineNum scanner (d d' : kvMap) :
  map_Forall (λ _ v, encoded v) d →
  parseDotEnvLoop lineNum scanner d = Ok d' →
  map_Forall (λ _ v, encoded v) d'.
Proof.
  revert lineNum d. induction scanner as [|l rest IH]; intros n d Hd.
  - by intros [= <-].
  - cbn [parseDotEnvLoop bufio.Scan]. destruct (_ <=? _)%N; [done|].
    destruct (parseDotEnvLine _ d) as [d1|e] eqn:Hline; [|done].
    apply IH. by eapply parseDotEnvLine_encoded.
Qed.

Lemma storeEncoded_encoded (m d : kvMap) :
  map_Forall (λ _ v, encoded v) d →
  map_Forall (λ _ v, encoded v) (storeEncoded m d).
Proof.
  intros Hd k v. rewrite storeEncoded_lookup.
  destruct (m !! k) as [raw|]; [intros [= <-]; by eexists|apply Hd].
Qed.

Lemma parseSource_encoded host src (d d' : kvMap) :
  map_Forall (λ _ v, encoded v) d →
  outcome (parseSource host src d) = Ok d' →
  map_Forall (λ _ v, encoded v) d'.
Proof.
  intros Hd. destruct src as [source|source]; simpl;
    rewrite wrapping_outcome.
  - unfold parseEnvSource. rewrite bind_outcome.
    destruct (outcome (decryptFile host source)) as [decrypted|e]; [|done].
    simpl. destruct (formats_FormatForPath host source); simpl; try done.
    + destruct (parseDotEnvContent decrypted d) as [d1|e] eqn:H; [|done].
      intros [= <-]. by eapply parseDotEnvLoop_encoded.
    + unfold parseJSONContent.
      destruct (json_Unmarshal_kvMap host decrypted); [|done].
      intros [= <-]. by apply storeEncoded_encoded.
    + unfold parseYAMLContent.
      destruct (yaml_Unmarshal_kvMap host decrypted); [|done].
      intros [= <-]. by apply storeEncoded_encoded.
  - unfold parseFileSource.
    destruct (parseFileName source) as [[key fname]|e]; [|done].
    rewrite lift_Ok_bind, bind_outcome.
    destruct (outcome (decryptFile host fname)) as [decrypted|e]; [|done].
    simpl. intros [= <-]. apply map_Forall_insert_2; [by eexists|done].
Qed.

Lemma parseSources_encoded host srcs (d d' : kvMap) :
  map_Forall (λ _ v, encoded v) d →
  outcome (parseSources host srcs d) = Ok d' →
  map_Forall (λ _ v, encoded v) d'.
Proof.
  revert d. induction srcs as [|src rest IH]; intros d Hd.
  - by intros [= <-].
  - cbn [parseSources]. rewrite bind_outcome.
    destruct (outcome (parseSource host src d)) as [d1|e] eqn:H; [|done].
    apply IH. by eapply parseSource_encoded.
Qed.

(** X12: every value in the data of a generated Secret is the base64
    encoding of some bytes, whichever kinds of source wrote it. *)
Theorem generateSecret_data_encoded host sopsSecret secret :
  outcome (generateSecret host sopsSecret) = Ok secret →
  map_Forall (λ _ v, encoded v) (Data secret).
Proof.
  unfold generateSecret. rewrite bind_outcome.
  destruct (outcome (parseInput host sopsSecret)) as [data|e] eqn:H; [|done].
  simpl. intros [= <-]. simpl.
  rewrite parseInput_parseSources in H.
  eapply parseSources_encoded; [|done]. apply map_Forall_empty.
Qed.

Lemma generateSecret_data_encoded_witness :
  map_Forall (λ _ v, encoded v) (Data demo_secret).
Proof.
  apply (generateSecret_data_encoded demo.host demo.good demo_secret).
  by vm_compute.
Defined.

(** ** The other fields of the Secret *)

(** X13: a request with a behavior gets the annotation
    [kustomize.config.k8s.io/behavior] set to it, over any value the
    request's annotations had for that key; with an empty behavior the
    assembler adds nothing and the request's own annotation, if any,
    goes through. *)
Theorem generateSecret_behavior host sopsSecret secret :
  outcome (generateSecret host sopsSecret) = Ok secret →
  Annotations (sObjectMeta secret) !! "kustomize.config.k8s.io/behavior" =
    if String.eqb (Behavior sopsSecret) ""
    then Annotations (gObjectMeta sopsSecret) !! "kustomize.config.k8s.io/behavior"
    else Some (Behavior sopsSecret).
Proof.
  intros H. rewrite (generateSecret_annotations _ _ _ _ H).
  destruct (String.eqb_spec (Behavior sopsSecret) "") as [Hb|Hb].
  - rewrite decide_False by (intros [_ ?]; done).
    rewrite decide_False by (intros [? _]; done).
    by rewrite copyAnnotations_lookup.
  - by rewrite decide_True.
Qed.

Lemma generateSecret_behavior_witness :
  Annotations (sObjectMeta demo_secret) !! "kustomize.config.k8s.io/behavior"
  = None.
Proof.
  apply (generateSecret_behavior demo.host demo.good demo_secret).
  by vm_compute.
Defined.

(** X14: every annotation of the request under a key other than the two
    stripped keys, [needs-hash] and [behavior] is on the Secret with its
    value, and the Secret has no annotation under such a key that the
    request lacks. *)
Theorem generateSecret_copies_annotations host sopsSecret secret (k : string) :
  outcome (generateSecret host sopsSecret) = Ok secret →
  k ≠ "config.kubernetes.io/local-config" →
  k ≠ "config.kubernetes.io/function" →
  k ≠ "kustomize.config.k8s.io/needs-hash" →
  k ≠ "kustomize.config.k8s.io/behavior" →
  Annotations (sObjectMeta secret) !! k
  = Annotations (gObjectMeta sopsSecret) !! k.
Proof.
  intros H H1 H2 H3 H4. rewrite (generateSecret_annotations _ _ _ _ H).
  rewrite decide_False by (intros [? _]; done).
  rewrite decide_False by (intros [? _]; done).
  rewrite copyAnnotations_lookup. unfold stripAnnotations.
  by rewrite !lookup_insert_ne, lookup_empty.
Qed.

Lemma generateSecret_copies_annotations_witness :
  ∃ secret,
    outcome (generateSecret demo.host
               (demo.generator kind "my-secret" {[ "created-by" := "me" ]}
                  [] [] false)) = Ok secret
    ∧ Annotations (sObjectMeta secret) !! "created-by" = Some "me".
Proof.
  eexists. split; [by vm_compute|].
  rewrite (generateSecret_copies_annotations demo.host
             (demo.generator kind "my-secret" {[ "created-by" := "me" ]}
                [] [] false) _ "created-by"); [reflexivity|by vm_compute|done..].
Defined.

(** X15: a generated Secret is of apiVersion [v1] and kind [Secret]; its
    name, namespace, labels and type are those of the request, unchanged,
    and its data is the map read from the sources; the assembler itself
    reads nothing more. *)
Theorem generateSecret_metadata host sopsSecret secret :
  outcome (generateSecret host sopsSecret) = Ok secret →
  sTypeMeta secret = {| APIVersion := "v1"; Kind := "Secret" |}
  ∧ Name (sObjectMeta secret) = Name (gObjectMeta sopsSecret)
  ∧ Namespace (sObjectMeta secret) = Namespace (gObjectMeta sopsSecret)
  ∧ Labels (sObjectMeta secret) = Labels (gObjectMeta sopsSecret)
  ∧ sType secret = gType sopsSecret
  ∧ parseInput host sopsSecret
    = (events (generateSecret host sopsSecret), Ok (Data secret)).
Proof.
  unfold generateSecret.
  destruct (parseInput host sopsSecret) as [ev [data|e]]; [|done].
  simpl. intros [= <-]. simpl. by rewrite (right_id_L [] (++)).
Qed.

Lemma generateSecret_metadata_witness :
  sTypeMeta demo_secret = {| APIVersion := "v1"; Kind := "Secret" |}
  ∧ Name (sObjectMeta demo_secret) = "my-secret"
  ∧ Namespace (sObjectMeta demo_secret) = ""
  ∧ Labels (sObjectMeta demo_secret) = ∅
  ∧ sType demo_secret = ""
  ∧ parseInput demo.host demo.good
    = (events (generateSecret demo.host demo.good), Ok (Data demo_secret)).
Proof.
  apply (generateSecret_metadata demo.host demo.good demo_secret).
  by vm_compute.
Defined.

(** ** Accepting a request, transforming a batch *)

(** X16: [readInput] accepts a document exactly when it decodes to a
    request of the expected apiVersion and kind with a name that is not
    empty, and then returns the decoded request as it is. *)
Theorem readInput_accepts_iff host manifestContent input :
  readInput host manifestContent = Ok input ↔
  yaml_Unmarshal_generator host manifestContent zeroInput = Ok input
  ∧ APIVersion (gTypeMeta input) = apiVersion
  ∧ Kind (gTypeMeta input) = kind
  ∧ Name (gObjectMeta input) ≠ "".
Proof.
  unfold readInput.
  destruct (yaml_Unmarshal_generator host manifestContent zeroInput)
    as [decoded|e]; [|by split; [|intros [? _]]].
  destruct (String.eqb_spec (APIVersion (gTypeMeta decoded)) apiVersion);
    simpl; [|split; [done|intros ([= <-] & ? & _); done]].
  destruct (String.eqb_spec (Kind (gTypeMeta decoded)) kind);
    simpl; [|split; [done|intros ([= <-] & _ & ? & _); done]].
  destruct (String.eqb_spec (Name (gObjectMeta decoded)) "");
    simpl; [split; [done|intros ([= <-] & _ & _ & ?); done]|].
  split; [by intros [= <-]|by intros [-> _]].
Qed.

Lemma generateLoop_all_succeed host items secrets generatedSecrets rl :
  Forall2 (λ o s, snd (transformed host o) = Ok s) items secrets →
  generateLoop host items generatedSecrets rl
  = (concat (map (λ o, fst (transformed host o)) items),
     (mkResourceList (generatedSecrets ++ secrets) (Results rl), true, None)).
Proof.
  intros H. revert generatedSecrets.
  induction H as [|o s items secrets Ho _ IH]; intros generatedSecrets; simpl.
  - by rewrite (right_id_L [] (++)).
  - unfold transformed in Ho |- * at 1.
    destruct (processSopsSecretGenerator host (KubeObject_String host o))
      as [ev [m|e]]; simpl in *; [|done].
    rewrite Ho, IH. by rewrite <-(assoc_L (++)).
Qed.

(** X17: when every document of a batch is transformed, the function
    reports success without an error, the items of the resource list
    become the generated Secrets, one for each document and in the order
    of the documents, and the results of the list are left as they
    were. *)
Theorem generateKRMManifest_all_succeed host rl secrets :
  Forall2 (λ o s, snd (transformed host o) = Ok s) (Items rl) secrets →
  generateKRMManifest host rl
  = (concat (map (λ o, fst (transformed host o)) (Items rl)),
     (mkResourceList secrets (Results rl), true, None))
  ∧ length secrets = length (Items rl).
Proof.
  intros H. split; [|symmetry; by eapply Forall2_length].
  unfold generateKRMManifest. by rewrite (generateLoop_all_succeed _ _ secrets).
Qed.

Lemma generateKRMManifest_all_succeed_witness :
  generateKRMManifest demo.host
    (mkResourceList (KO := KubeObject demo.host) ["good"; "good"] [])
  = ([EvReadFile "a.env"; EvDecrypt "FOO=secret" Dotenv;
      EvReadFile "plain.txt"; EvDecrypt ("secret" +:+ String LF "") Binary;
      EvReadFile "a.env"; EvDecrypt "FOO=secret" Dotenv;
      EvReadFile "plain.txt"; EvDecrypt ("secret" +:+ String LF "") Binary],
     (mkResourceList ["Secret my-secret"; "Secret my-secret"] [], true, None)).
Proof.
  apply (generateKRMManifest_all_succeed demo.host
           (mkResourceList (KO := KubeObject demo.host) ["good"; "good"] [])
           ["Secret my-secret"; "Secret my-secret"]).
  repeat (constructor; [by vm_compute|]). constructor.
Defined.

(** ** What a descriptor that is accepted looks like *)

Lemma Count_split (s : string) (sep : ascii) (n : nat) :
  strings.Count s sep = S n →
  ∃ a rest,
    s = a +:+ String sep rest
    ∧ strings.Count a sep = 0 ∧ strings.Count rest sep = n.
Proof.
  induction s as [|c s IH]; simpl; [done|].
  destruct (Ascii.eqb_spec c sep) as [->|Hc]; simpl.
  - intros [= H]. by exists "", s.
  - intros H. destruct (IH H) as (a & rest & -> & Ha & Hrest).
    exists (String c a), rest. rewrite string_app_cons. simpl.
    destruct (Ascii.eqb_spec c sep); done.
Qed.

Lemma Split_two (s a b : string) (sep : ascii) :
  strings.Split s sep = [a; b] →
  s = a +:+ String sep b
  ∧ strings.Count a sep = 0 ∧ strings.Count b sep = 0.
Proof.
  intros H. pose proof (Split_length s sep) as Hlen.
  rewrite H in Hlen. simpl in Hlen.
  destruct (Count_split s sep 0) as (a' & b' & -> & Ha & Hb); [lia|].
  rewrite Split_first, Split_no_sep in H by done.
  by injection H as -> ->.
Qed.

Lemma Split_one (s a : string) (sep : ascii) :
  strings.Split s sep = [a] → a = s ∧ strings.Count s sep = 0.
Proof.
  intros H. pose proof (Split_length s sep) as Hlen.
  rewrite H in Hlen. simpl in Hlen.
  assert (strings.Count s sep = 0) as Hs by lia.
  rewrite Split_no_sep in H by done. by injection H as ->.
Qed.

Lemma afterLastSlash_no_slash (p : string) :
  strings.Count (path.afterLastSlash p) path.slash = 0.
Proof.
  induction p as [|c p IH]; [done|]. cbn [path.afterLastSlash].
  destruct (strings.Count p path.slash) as [|n] eqn:Hp; simpl; [|done].
  destruct (Ascii.eqb c path.slash) eqn:Hc; [done|].
  simpl. by rewrite Hc, Hp.
Qed.

Lemma Count_afterLastSlash_le (p : string) (c : ascii) :
  strings.Count (path.afterLastSlash p) c ≤ strings.Count p c.
Proof.
  induction p as [|x p IH]; [done|]. cbn [path.afterLastSlash].
  destruct (Nat.ltb 0 (strings.Count p path.slash)); [simpl; lia|].
  destruct (Ascii.eqb x path.slash); simpl; lia.
Qed.

Lemma Count_stripTrailingSlashes_le (p : string) (c : ascii) :
  strings.Count (path.stripTrailingSlashes p) c ≤ strings.Count p c.
Proof.
  induction p as [|x p IH]; [done|]. cbn [path.stripTrailingSlashes].
  destruct (path.stripTrailingSlashes p) as [|y r].
  - destruct (Ascii.eqb x path.slash); simpl in *; lia.
  - simpl in *. lia.
Qed.

Lemma Base_shape (p : string) :
  path.Base p ≠ ""
  ∧ (path.Base p = "/" ∨ strings.Count (path.Base p) path.slash = 0)
  ∧ strings.Count (path.Base p) equals ≤ strings.Count p equals.
Proof.
  unfold path.Base. destruct (String.eqb_spec p "") as [->|_].
  { split; [done|]. split; [by right|done]. }
  destruct (String.eqb_spec
              (path.afterLastSlash (path.stripTrailingSlashes p)) "") as [E|E].
  { split; [done|]. split; [by left|simpl; lia]. }
  split; [done|]. split; [right; apply afterLastSlash_no_slash|].
  etrans; [apply Count_afterLastSlash_le|apply Count_stripTrailingSlashes_le].
Qed.

(** X18: a descriptor that is accepted yields a key that is not empty
    and a key and a path without an equals sign.  Either the descriptor
    is the path itself and the key is its base name, which has no slash
    unless it is the single slash; or the descriptor is the key, an
    equals sign and the path, and the path is not empty. *)
Theorem parseFileName_accepted (source key fn : string) :
  parseFileName source = Ok (key, fn) →
  key ≠ ""
  ∧ strings.Count key equals = 0
  ∧ strings.Count fn equals = 0
  ∧ (source = fn ∧ key = path.Base source
     ∧ (key = "/" ∨ strings.Count key path.slash = 0)
     ∨ source = key +:+ String equals fn ∧ fn ≠ "").
Proof.
  unfold parseFileName.
  destruct (strings.Split source equals) as [|a [|b [|c l]]] eqn:H; try done.
  - apply Split_one in H as [-> Hs]. intros [= <- <-].
    destruct (Base_shape source) as (Hne & Hslash & Hle).
    split; [done|]. split; [lia|]. split; [done|]. by left.
  - apply Split_two in H as (-> & Ha & Hb).
    destruct (String.eqb_spec a ""); [done|].
    destruct (String.eqb_spec b ""); [done|].
    intros [= <- <-]. repeat (split; [done|]). by right.
Qed.

Lemma parseFileName_accepted_witness :
  "tls.crt" ≠ ""
  ∧ strings.Count "tls.crt" equals = 0
  ∧ strings.Count "certs/server.pem" equals = 0
  ∧ ("tls.crt=certs/server.pem" = "certs/server.pem"
     ∧ "tls.crt" = path.Base "tls.crt=certs/server.pem"
     ∧ ("tls.crt" = "/" ∨ strings.Count "tls.crt" path.slash = 0)
     ∨ "tls.crt=certs/server.pem" = "tls.crt" +:+ String equals "certs/server.pem"
       ∧ "certs/server.pem" ≠ "").
Proof.
  apply (parseFileName_accepted "tls.crt=certs/server.pem"
           "tls.crt" "certs/server.pem").
  reflexivity.
Defined.

(** ** What a dotenv file can write *)

Lemma Cut_Some (s a b : string) (sep : ascii) :
  strings.Cut s sep = Some (a, b) →
  s = a +:+ String sep b ∧ strings.Count a sep = 0.
Proof.
  revert a. induction s as [|c s IH]; intros a; simpl; [done|].
  destruct (Ascii.eqb_spec c sep) as [->|Hc].
  - by intros [= <- <-].
  - destruct (strings.Cut s sep) as [[a' b']|]; [|done].
    intros [= <- <-]. destruct (IH a' eq_refl) as [-> Ha].
    rewrite string_app_cons. simpl. by destruct (Ascii.eqb_spec c sep).
Qed.

Lemma trimLeftFrom_suffix (f : N → bool) (skip : nat) (s : string) :
  ∃ pre, s = pre +:+ bytes.trimLeftFrom f skip s.
Proof.
  revert skip. induction s as [|c s IH]; intros skip; [by exists ""|].
  cbn [bytes.trimLeftFrom]. destruct skip as [|k].
  - destruct (if (byte_val c <? 128)%N then _ else _) as [r wid].
    destruct (f r); [|by exists ""].
    destruct (IH (wid - 1)) as [pre Hpre]. exists (String c pre).
    by rewrite string_app_cons, <-Hpre.
  - destruct (IH k) as [pre Hpre]. exists (String c pre).
    by rewrite string_app_cons, <-Hpre.
Qed.

Lemma Count_TrimLeftFunc_le (s : string) (c : ascii) :
  strings.Count (bytes.TrimLeftFunc s unicode.IsSpace) c ≤ strings.Count s c.
Proof.
  destruct (trimLeftFrom_suffix unicode.IsSpace 0 s) as [pre Hpre].
  rewrite Hpre at 2. rewrite Count_app. unfold bytes.TrimLeftFunc. lia.
Qed.

Lemma Count_dropCR_le (s : string) (c : ascii) :
  strings.Count (bufio.dropCR s) c ≤ strings.Count s c.
Proof.
  induction s as [|x s IH]; [done|]. destruct s as [|y s].
  - simpl. destruct (Ascii.eqb x CR); simpl; lia.
  - change (bufio.dropCR (String x (String y s)))
      with (String x (bufio.dropCR (String y s))).
    simpl in *. lia.
Qed.

Lemma Count_string_drop_le (n : nat) (s : string) (c : ascii) :
  strings.Count (string_drop n s) c ≤ strings.Count s c.
Proof.
  revert s. induction n as [|n IH]; intros [|x s]; simpl; try lia.
  specialize (IH s). lia.
Qed.

Lemma Count_TrimPrefix_le (s prefix : string) (c : ascii) :
  strings.Count (bytes.TrimPrefix s prefix) c ≤ strings.Count s c.
Proof.
  unfold bytes.TrimPrefix. destruct (bytes.HasPrefix s prefix); [|done].
  apply Count_string_drop_le.
Qed.

Lemma rawLines_no_LF (content : string) :
  Forall (λ l, strings.Count l LF = 0) (bufio.rawLines content).
Proof.
  induction content as [|c content IH]; [constructor|]. simpl.
  destruct (Ascii.eqb c LF) eqn:Hc; [by constructor|].
  destruct (bufio.rawLines content) as [|l ls].
  - constructor; [|done]. simpl. by rewrite Hc.
  - inversion IH; subst. constructor; [|done]. simpl. by rewrite Hc.
Qed.

Lemma parseDotEnvLine_dotenvEntry line (d d' : kvMap) :
  strings.Count line LF = 0 →
  map_Forall dotenvEntry d →
  parseDotEnvLine line d = Ok d' →
  map_Forall dotenvEntry d'.
Proof.
  intros Hline Hd. unfold parseDotEnvLine.
  destruct (utf8.Valid line); simpl; [|done].
  pose proof (Count_TrimLeftFunc_le line LF) as Hle.
  destruct (bytes.TrimLeftFunc line unicode.IsSpace) as [|c l] eqn:Htrim;
    [by intros [= <-]|].
  destruct (Ascii.eqb_spec c hash) as [|Hc]; [by intros [= <-]|].
  unfold strings.SplitN2.
  destruct (strings.Cut (String c l) equals) as [[k v]|] eqn:Hcut; [|done].
  intros [= <-]. apply Cut_Some in Hcut as [Heq Hk].
  rewrite Heq, Count_app in Hle. simpl in Hle.
  apply map_Forall_insert_2; [|done].
  split; [done|]. split; [lia|]. split.
  - intros rest ->. rewrite string_app_cons in Heq. by injection Heq.
  - exists v. split; [done|lia].
Qed.

Lemma parseDotEnvLoop_dotenvEntry lineNum scanner (d d' : kvMap) :
  Forall (λ l, strings.Count l LF = 0) scanner →
  map_Forall dotenvEntry d →
  parseDotEnvLoop lineNum scanner d = Ok d' →
  map_Forall dotenvEntry d'.
Proof.
  intros Hs. revert lineNum d.
  induction Hs as [|l rest Hl _ IH]; intros n d Hd.
  - by intros [= <-].
  - cbn [parseDotEnvLoop bufio.Scan]. destruct (_ <=? _)%N; [done|].
    destruct (parseDotEnvLine _ d) as [d1|e] eqn:Hline; [|done].
    apply IH. eapply parseDotEnvLine_dotenvEntry; [|done|exact Hline].
    pose proof (Count_dropCR_le l LF).
    destruct (Nat.eqb n 0); [|lia].
    pose proof (Count_TrimPrefix_le (bufio.dropCR l) utf8bom LF). lia.
Qed.

(** X19: whatever a dotenv file writes, no key of it holds an equals
    sign or a line feed or starts with a hash, and no value encodes
    bytes with a line feed in them: a value never runs over a line. *)
Theorem parseDotEnvContent_entries (content : string) (written : kvMap) :
  parseDotEnvContent content ∅ = Ok written →
  map_Forall dotenvEntry written.
Proof.
  unfold parseDotEnvContent. apply parseDotEnvLoop_dotenvEntry.
  - apply rawLines_no_LF.
  - apply map_Forall_empty.
Qed.

Lemma parseDotEnvContent_entries_witness :
  map_Forall dotenvEntry
    (<["B" := "eD15"]> {[ "A" := "MQ==" ]} : kvMap).
Proof.
  apply (parseDotEnvContent_entries
           ("A=1" +:+ String CR (String LF ("# c" +:+ String LF " B=x=y")))).
  by vm_compute.
Defined.

(** ** Dotenv files one after the other *)

Lemma prefix_app (p a t : string) :
  String.prefix p a = true → String.prefix p (a +:+ t) = true.
Proof.
  revert a. induction p as [|x p IH]; intros a.
  - intros _. by destruct (a +:+ t).
  - destruct a as [|y a]; [done|]. rewrite string_app_cons. simpl.
    destruct (ascii_dec x y); [apply IH|done].
Qed.

Lemma rawLines_head_prefix (content l : string) (ls : list string) :
  bufio.rawLines content = l :: ls → ∃ t, content = l +:+ t.
Proof.
  revert l ls. induction content as [|c content IH]; intros l ls; [done|].
  simpl. destruct (Ascii.eqb c LF).
  - intros [= <- _]. by eexists.
  - destruct (bufio.rawLines content) as [|l' ls'] eqn:Hr.
    + intros [= <- _]. apply rawLines_nil in Hr as ->. by exists "".
    + intros [= <- _]. destruct (IH l' ls' eq_refl) as [t ->].
      exists t. by rewrite string_app_cons.
Qed.

Lemma dropCR_prefix (l : string) : ∃ t, l = bufio.dropCR l +:+ t.
Proof.
  induction l as [|x l IH]; [by exists ""|]. destruct l as [|y l].
  - simpl. destruct (Ascii.eqb x CR); [by eexists|by exists ""].
  - change (bufio.dropCR (String x (String y l)))
      with (String x (bufio.dropCR (String y l))).
    destruct IH as [t Ht]. exists t. by rewrite string_app_cons, <-Ht.
Qed.

Lemma parseDotEnvLoop_shift n m scanner (d d' : kvMap) :
  1 ≤ n → 1 ≤ m →
  parseDotEnvLoop n scanner d = Ok d' → parseDotEnvLoop m scanner d = Ok d'.
Proof.
  revert n m d. induction scanner as [|l rest IH]; intros n m d Hn Hm; [done|].
  cbn [parseDotEnvLoop bufio.Scan]. destruct (_ <=? _)%N; [done|].
  destruct n as [|n]; [lia|]. destruct m as [|m]; [lia|]. simpl Nat.eqb.
  cbv iota. destruct (parseDotEnvLine _ d) as [d1|e]; [|done].
  apply IH; lia.
Qed.

Lemma parseDotEnvLoop_from_first n content (d d' : kvMap) :
  bytes.HasPrefix content utf8bom = false →
  parseDotEnvLoop 0 (bufio.rawLines content) d = Ok d' →
  parseDotEnvLoop n (bufio.rawLines content) d = Ok d'.
Proof.
  intros Hbom. destruct (bufio.rawLines content) as [|l ls] eqn:Hr; [done|].
  cbn [parseDotEnvLoop bufio.Scan]. destruct (_ <=? _)%N; [done|].
  simpl Nat.eqb. cbv iota.
  assert (bytes.TrimPrefix (bufio.dropCR l) utf8bom = bufio.dropCR l) as ->.
  { unfold bytes.TrimPrefix.
    destruct (bytes.HasPrefix (bufio.dropCR l) utf8bom) eqn:Hp; [|done].
    destruct (rawLines_head_prefix _ _ _ Hr) as [t ->].
    destruct (dropCR_prefix l) as [t' Ht']. rewrite Ht' in Hbom.
    unfold bytes.HasPrefix in *.
    by rewrite string_app_assoc, (prefix_app _ _ _ Hp) in Hbom. }
  destruct n as [|n]; [done|]. simpl Nat.eqb. cbv iota.
  destruct (parseDotEnvLine _ d) as [d1|e]; [|done].
  apply parseDotEnvLoop_shift; lia.
Qed.

(** X20: dotenv content put after other content that ends its last
    line is read as when it is read on its own into the map the first
    part left, provided it does not start with a byte order mark (which
    is stripped only at the very start) and both parts are accepted. *)
Theorem parseDotEnvContent_concat (p rest : string) (d d1 d2 : kvMap) :
  parseDotEnvContent (p +:+ String LF "") d = Ok d1 →
  bytes.HasPrefix rest utf8bom = false →
  parseDotEnvContent rest d1 = Ok d2 →
  parseDotEnvContent (p +:+ String LF rest) d = Ok d2.
Proof.
  unfold parseDotEnvContent. intros Hp Hbom Hrest.
  rewrite rawLines_complete, parseDotEnvLoop_app, Hp.
  by apply parseDotEnvLoop_from_first.
Qed.

Lemma parseDotEnvContent_concat_witness :
  parseDotEnvContent ("A=1" +:+ String LF ("A=2" +:+ String LF "B=3")) ∅
  = Ok (<["B" := "Mw=="]> {[ "A" := "Mg==" ]}).
Proof.
  apply (parseDotEnvContent_concat "A=1" ("A=2" +:+ String LF "B=3")
           ∅ {[ "A" := "MQ==" ]}).
  - reflexivity.
  - reflexivity.
  - by vm_compute.
Defined.

(** ** Files that cannot be read or decrypted *)

(** X21: when the file of an env source cannot be read, nothing is
    decrypted and the format of the path plays no part; when it is read
    but cannot be decrypted, its content is not looked at.  Either way
    the cause is wrapped first in what failed and then in the
    descriptor, and the sources after it are not visited. *)
Theorem parseEnvSources_unreadable host source rest (data : kvMap) (e : error) :
  (os_ReadFile host source = Err e →
   parseEnvSources host (source :: rest) data
   = ([EvReadFile source],
      Err (Wrap (Wrap e CtxCouldNotRead) (CtxEnvSource source))))
  ∧ (∀ content,
       os_ReadFile host source = Ok content →
       decrypt_DataWithFormat host content (formats_FormatForPath host source)
       = Err e →
       parseEnvSources host (source :: rest) data
       = ([EvReadFile source;
           EvDecrypt content (formats_FormatForPath host source)],
          Err (Wrap (Wrap e CtxCouldNotDecrypt) (CtxEnvSource source)))).
Proof.
  split.
  - intros Hr. cbn [parseEnvSources]. unfold parseEnvSource, decryptFile.
    simpl. by rewrite Hr.
  - intros content Hr Hd. cbn [parseEnvSources].
    unfold parseEnvSource, decryptFile. simpl. rewrite Hr. simpl.
    by rewrite Hd.
Qed.

Lemma parseEnvSources_unreadable_witness :
  parseEnvSources demo.host ["gone.ini"; "a.env"] ∅
  = ([EvReadFile "gone.ini"],
     Err (Wrap (Wrap (ErrExternal "no such file or directory") CtxCouldNotRead)
            (CtxEnvSource "gone.ini"))).
Proof.
  apply (proj1 (parseEnvSources_unreadable demo.host "gone.ini" ["a.env"] ∅
                  (ErrExternal "no such file or directory"))).
  reflexivity.
Defined.

(** ** A request without sources *)

(** X22: a request that lists no env source and no file source always
    yields a Secret; nothing is read or decrypted and the data of the
    Secret is empty. *)
Theorem generateSecret_no_sources host sopsSecret :
  EnvSources sopsSecret = [] →
  FileSources sopsSecret = [] →
  ∃ secret,
    generateSecret host sopsSecret = ([], Ok secret) ∧ Data secret = ∅.
Proof.
  intros Henv Hfile. unfold generateSecret, parseInput.
  rewrite Henv, Hfile. by eexists.
Qed.

Lemma generateSecret_no_sources_witness :
  ∃ secret,
    generateSecret demo.host (demo.generator kind "empty" ∅ [] [] true)
    = ([], Ok secret)
    ∧ Data secret = ∅.
Proof.
  apply (generateSecret_no_sources demo.host
           (demo.generator kind "empty" ∅ [] [] true)); reflexivity.
Defined.
